(** * Document-search chat page (src/app/page.tsx)

    A shallow embedding of the [HomePage] component: its React state, the
    event handlers [handleFileSelect], [handleDeleteDocument], [handleQuery]
    and [handleFollowUp], and the part of the JSX that renders an agent
    message.  Asynchronous handlers are cut at their [await] points; what the
    platform supplies ([Date.now()], [Math.random()], locale strings, the
    outcome of [fetch]) arrives as an argument of the step that reads it.

    Conventions.
    - A JavaScript string is the list of its UTF-16 code units.
    - A JavaScript number is a rational ([Q]) where the source computes with
      fractions, and an integer ([Z]) where it holds a clock reading, a
      length or a rounded value.  Rounding errors of binary floating point
      are not modelled.
    - A value read from the JSON payload is [undefined], [null] or a value of
      the type its TypeScript interface declares. *)

From Stdlib Require Import QArith Qround Lqa DecimalPos.
From stdpp Require Import gmap strings list fin_maps.

Local Open Scope Z_scope.

(** ** Strings *)

Abbreviation jsstring := (list N).

(** The code units of an ASCII literal of the source. *)
Fixpoint js (s : string) : jsstring :=
  match s with
  | EmptyString => []
  | String a s' => Ascii.N_of_ascii a :: js s'
  end.

(** ECMAScript [WhiteSpace] and [LineTerminator] code points, the characters
    that [String.prototype.trim] strips. *)
Definition isWhiteSpace (c : N) : bool :=
  ((9 <=? c) && (c <=? 13) || (c =? 32) || (c =? 160) || (c =? 5760)
   || (8192 <=? c) && (c <=? 8202) || (c =? 8232) || (c =? 8233)
   || (c =? 8239) || (c =? 8287) || (c =? 12288) || (c =? 65279))%N.

Fixpoint trimStart (s : jsstring) : jsstring :=
  match s with
  | c :: s' => if isWhiteSpace c then trimStart s' else s
  | [] => []
  end.

Definition trimEnd (s : jsstring) : jsstring := rev (trimStart (rev s)).

(** [s.trim()] *)
Definition trim (s : jsstring) : jsstring := trimEnd (trimStart s).

(** Truthiness of a string: only the empty string is falsy. *)
Definition truthy_string (s : jsstring) : bool :=
  match s with [] => false | _ => true end.

(** A string made of white space only (the empty string included). *)
Definition whitespace_only (s : jsstring) : bool := forallb isWhiteSpace s.

(** Decimal digits of an unsigned decimal numeral, as code units. *)
Fixpoint digits (d : Decimal.uint) : jsstring :=
  match d with
  | Decimal.Nil => []
  | Decimal.D0 d => 48%N :: digits d
  | Decimal.D1 d => 49%N :: digits d
  | Decimal.D2 d => 50%N :: digits d
  | Decimal.D3 d => 51%N :: digits d
  | Decimal.D4 d => 52%N :: digits d
  | Decimal.D5 d => 53%N :: digits d
  | Decimal.D6 d => 54%N :: digits d
  | Decimal.D7 d => 55%N :: digits d
  | Decimal.D8 d => 56%N :: digits d
  | Decimal.D9 d => 57%N :: digits d
  end.

(** [`${n}`] for an integer number [n] (below 1e21 in absolute value, where
    JavaScript prints plain decimal digits). *)
Definition Number_toString (n : Z) : jsstring :=
  match n with
  | Z0 => [48%N]
  | Zpos p => digits (Pos.to_uint p)
  | Zneg p => 45%N :: digits (Pos.to_uint p)
  end.

(** ** Numbers *)

(** A number is the rational it denotes and the arithmetic on it is exact.
    The page computes in binary64, where a product such as [c * 100] is
    rounded to the nearest representable value (0.285 * 100 gives
    28.499999999999996 there), so that next to a boundary [Math.round] and
    [Math.floor] of a product can be one away from the values computed here;
    the bounds on them are the same in both. *)

(** [Math.round(x)]: the nearest integer, halves rounded up. *)
Definition Math_round (x : Q) : Z := Qfloor (x + (1 # 2))%Q.

(** [Math.floor(x)] *)
Definition Math_floor (x : Q) : Z := Qfloor x.

(** ** Values read from JSON *)

(** A property of a parsed JSON object at its declared type [T]: missing,
    [null], or a value. *)
Inductive jsval (T : Type) : Type :=
| undefined
| null
| val (v : T).
Arguments undefined {T}.
Arguments null {T}.
Arguments val {T} v.

(** [a ?? b] *)
Definition nullish {T} (a b : jsval T) : jsval T :=
  match a with
  | val v => val v
  | _ => b
  end.
Infix "??" := nullish (at level 45, right associativity).

(** [a ?? d] where [d] is a literal of the source. *)
Definition nullish_or {T} (a : jsval T) (d : T) : T :=
  match a with
  | val v => v
  | _ => d
  end.

(** [a?.p] *)
Definition opt_chain {T U} (a : jsval T) (p : T → jsval U) : jsval U :=
  match a with
  | val o => p o
  | _ => undefined
  end.

(** ** Data model (the interfaces of the source) *)

Record Document := {
  doc_id : jsstring;
  doc_name : jsstring;
  doc_size : Z;
  doc_pages : Z;
  uploadDate : jsstring;
  uploadProgress : option Q;
}.

Record Citation := {
  document_name : jsval jsstring;
  page_number : jsval Q;
  excerpt : jsval jsstring;
  relevance_score : jsval Q;
}.

Record Metadata := {
  search_queries_used : jsval (list jsstring);
  total_passages_retrieved : jsval Q;
  processing_time : jsval jsstring;
}.

Record SearchResponse := {
  answer : jsval jsstring;
  citations : jsval (list Citation);
  documents_referenced : jsval (list jsstring);
  confidence : jsval Q;
  follow_up_suggestions : jsval (list jsstring);
  metadata : jsval Metadata;
}.

Inductive Role := user | agent.

(** [content] is declared a string; an agent message takes it from the
    defaulted [answer], so the model keeps it a [jsval]. *)
Record ChatMessage := {
  msg_id : jsstring;
  msg_type : Role;
  content : jsval jsstring;
  response : option SearchResponse;
  timestamp : jsstring;
}.

(** An entry of a [FileList]. *)
Record File := {
  file_name : jsstring;
  file_size : Z;
  file_type : jsstring;
}.

(** ** Component state ([useState] cells of [HomePage]) *)

Record State := {
  documents : list Document;
  chatMessages : list ChatMessage;
  query : jsstring;
  loading : bool;
  sidebarOpen : bool;
  uploadingFiles : gmap jsstring Q;
  selectedCitation : option Citation;
  deleteConfirm : option jsstring;
}.

Definition initialState : State := {|
  documents := [];
  chatMessages := [];
  query := [];
  loading := false;
  sidebarOpen := true;
  uploadingFiles := ∅;
  selectedCitation := None;
  deleteConfirm := None;
|}.

(** State setters, each applied to an updater [prev => next]. *)
Definition setDocuments (f : list Document → list Document) (s : State) : State :=
  {| documents := f (documents s); chatMessages := chatMessages s;
     query := query s; loading := loading s; sidebarOpen := sidebarOpen s;
     uploadingFiles := uploadingFiles s;
     selectedCitation := selectedCitation s; deleteConfirm := deleteConfirm s |}.

Definition setChatMessages (f : list ChatMessage → list ChatMessage) (s : State) : State :=
  {| documents := documents s; chatMessages := f (chatMessages s);
     query := query s; loading := loading s; sidebarOpen := sidebarOpen s;
     uploadingFiles := uploadingFiles s;
     selectedCitation := selectedCitation s; deleteConfirm := deleteConfirm s |}.

Definition setQuery (q : jsstring) (s : State) : State :=
  {| documents := documents s; chatMessages := chatMessages s;
     query := q; loading := loading s; sidebarOpen := sidebarOpen s;
     uploadingFiles := uploadingFiles s;
     selectedCitation := selectedCitation s; deleteConfirm := deleteConfirm s |}.

Definition setLoading (b : bool) (s : State) : State :=
  {| documents := documents s; chatMessages := chatMessages s;
     query := query s; loading := b; sidebarOpen := sidebarOpen s;
     uploadingFiles := uploadingFiles s;
     selectedCitation := selectedCitation s; deleteConfirm := deleteConfirm s |}.

Definition setSidebarOpen (b : bool) (s : State) : State :=
  {| documents := documents s; chatMessages := chatMessages s;
     query := query s; loading := loading s; sidebarOpen := b;
     uploadingFiles := uploadingFiles s;
     selectedCitation := selectedCitation s; deleteConfirm := deleteConfirm s |}.

Definition setUploadingFiles (f : gmap jsstring Q → gmap jsstring Q) (s : State) : State :=
  {| documents := documents s; chatMessages := chatMessages s;
     query := query s; loading := loading s; sidebarOpen := sidebarOpen s;
     uploadingFiles := f (uploadingFiles s);
     selectedCitation := selectedCitation s; deleteConfirm := deleteConfirm s |}.

Definition setSelectedCitation (c : option Citation) (s : State) : State :=
  {| documents := documents s; chatMessages := chatMessages s;
     query := query s; loading := loading s; sidebarOpen := sidebarOpen s;
     uploadingFiles := uploadingFiles s;
     selectedCitation := c; deleteConfirm := deleteConfirm s |}.

Definition setDeleteConfirm (d : option jsstring) (s : State) : State :=
  {| documents := documents s; chatMessages := chatMessages s;
     query := query s; loading := loading s; sidebarOpen := sidebarOpen s;
     uploadingFiles := uploadingFiles s;
     selectedCitation := selectedCitation s; deleteConfirm := d |}.

(** ** Document registry: [handleFileSelect] *)

Definition pdf : jsstring := js "application/pdf".

(** [Array.from(files).filter(file => file.type === 'application/pdf')] *)
Definition selectedFiles (files : list File) : list File :=
  filter (λ file, file_type file = pdf) files.

(** [`${file.name}-${Date.now()}`] *)
Definition fileId_of (name : jsstring) (now : Z) : jsstring :=
  name ++ js "-" ++ Number_toString now.

(** [prev[fileId] || 0] *)
Definition current_progress (fileId : jsstring) (prev : gmap jsstring Q) : Q :=
  match prev !! fileId with
  | Some v => if Qeq_bool v 0 then 0%Q else v
  | None => 0%Q
  end.

(** The updater run by one firing of [progressInterval]; [r] is the value
    returned by [Math.random()]. *)
Definition progressTick (fileId : jsstring) (r : Q) (prev : gmap jsstring Q)
  : gmap jsstring Q :=
  let current := current_progress fileId prev in
  if Qle_bool 90 current then prev
  else <[fileId := (current + r * 40)%Q]> prev.

(** Whether that firing calls [clearInterval(progressInterval)]. *)
Definition tickClearsInterval (fileId : jsstring) (prev : gmap jsstring Q) : bool :=
  Qle_bool 90 (current_progress fileId prev).

(** Loop body up to the [await]: the progress entry is created at 0. *)
Definition beginUpload (fileId : jsstring) (s : State) : State :=
  setUploadingFiles (λ prev, <[fileId := 0%Q]> prev) s.

(** Loop body after the [await]; [r] is [Math.random()], [date] is
    [new Date().toLocaleDateString()]. *)
Definition completeUpload (file : File) (fileId : jsstring) (r : Q)
    (date : jsstring) (s : State) : State :=
  let newDoc := {|
    doc_id := fileId;
    doc_name := file_name file;
    doc_size := file_size file;
    doc_pages := Math_floor (r * 100) + 10;
    uploadDate := date;
    uploadProgress := None;
  |} in
  setUploadingFiles (λ prev, delete fileId prev)
    (setDocuments (λ prev, newDoc :: prev) s).

(** ** Document registry: deletion *)

(** The trash button of a document card: [setDeleteConfirm(doc.id)]. *)
Definition requestDelete (docId : jsstring) (s : State) : State :=
  setDeleteConfirm (Some docId) s.

Definition handleDeleteDocument (docId : jsstring) (s : State) : State :=
  setDeleteConfirm None
    (setDocuments (λ prev, filter (λ doc, doc_id doc ≠ docId) prev) s).

(** The dialog's Delete action:
    [deleteConfirm && handleDeleteDocument(deleteConfirm)]; the dialog then
    closes, which runs [onOpenChange]. *)
Definition confirmDelete (s : State) : State :=
  let s' :=
    match deleteConfirm s with
    | Some docId => if truthy_string docId then handleDeleteDocument docId s else s
    | None => s
    end in
  setDeleteConfirm None s'.

(** The dialog's Cancel action ([onOpenChange]). *)
Definition cancelDelete (s : State) : State := setDeleteConfirm None s.

(** ** Conversation: [handleQuery] *)

(** The [fetch] call issued by [handleQuery]. *)
Record Request := {
  req_url : jsstring;
  req_method : jsstring;
  req_content_type : jsstring;
  req_message : jsstring;
  req_agent_id : jsstring;
}.

Definition agent_id : jsstring := js "6909a9b15d0b2c2413178b1e".

(** [handleQuery] up to [await fetch(...)]: the new state and the request
    issued, if any.  [now] is [Date.now()], [time] is
    [new Date().toLocaleTimeString()]. *)
Definition handleQuery_submit (now : Z) (time : jsstring) (s : State)
  : State * option Request :=
  if negb (truthy_string (trim (query s))) || loading s then (s, None)
  else
    let userMessage := {|
      msg_id := js "msg-" ++ Number_toString now;
      msg_type := user;
      content := val (query s);
      response := None;
      timestamp := time;
    |} in
    (setLoading true
       (setQuery []
          (setChatMessages (λ prev, prev ++ [userMessage]) s)),
     Some {| req_url := js "/api/agent";
             req_method := js "POST";
             req_content_type := js "application/json";
             req_message := query s;
             req_agent_id := agent_id |}).

(** The value of [data.response]. *)
Inductive ResponseField :=
| RespUndefined
| RespNull
| RespString (s : jsstring)
| RespObject (o : SearchResponse)
| RespOther (truthy : bool).   (* a number, a boolean or an array *)

Definition truthy_response (r : ResponseField) : bool :=
  match r with
  | RespUndefined | RespNull => false
  | RespString s => truthy_string s
  | RespObject _ => true
  | RespOther b => b
  end.

(** The value of [await response.json()]: [success] is the truthiness of
    [data.success]. *)
Inductive Data :=
| DataNull
| DataObject (success : bool) (resp : ResponseField)
| DataOther.                   (* a number, a string, a boolean or an array *)

(** How the awaited calls of the [try] block end. *)
Inductive FetchOutcome :=
| FetchRejected                (* [fetch] rejects: transport failure *)
| JsonRejected                 (* [response.json()] rejects: malformed body *)
| JsonResolved (data : Data).

(** The value of [parsedResponse]. *)
Inductive Parsed :=
| ParsedNull                   (* [null] or [undefined]: reading a property throws *)
| ParsedObject (o : SearchResponse)
| ParsedOther.                 (* a value without any of the recognized properties *)

(** [parsedResponse.p]; [None] is the [TypeError]. *)
Definition get {T} (p : Parsed) (field : SearchResponse → jsval T) : option (jsval T) :=
  match p with
  | ParsedNull => None
  | ParsedObject o => Some (field o)
  | ParsedOther => Some undefined
  end.

Definition fallback_answer : jsstring :=
  js "No documents found matching your query. Please upload documents to get started.".

Definition error_text : jsstring :=
  js "An error occurred while processing your query. Please try again.".

(** The initial value of [agentResponse]. *)
Definition defaultResponse : SearchResponse := {|
  answer := val fallback_answer;
  citations := val [];
  documents_referenced := val [];
  confidence := val 0%Q;
  follow_up_suggestions := val [];
  metadata := val {|
    search_queries_used := val [];
    total_passages_retrieved := val 0%Q;
    processing_time := val (js "0s");
  |};
|}.

(** The object literal assigned to [agentResponse] inside the [if]. *)
Definition defaulted (parsedResponse : Parsed) (agentResponse : SearchResponse)
  : option SearchResponse :=
  a ← get parsedResponse answer;
  c ← get parsedResponse citations;
  d ← get parsedResponse documents_referenced;
  k ← get parsedResponse confidence;
  f ← get parsedResponse follow_up_suggestions;
  m ← get parsedResponse metadata;
  Some {|
    answer := a ?? answer agentResponse;
    citations := c ?? citations agentResponse;
    documents_referenced := d ?? documents_referenced agentResponse;
    confidence := k ?? confidence agentResponse;
    follow_up_suggestions := f ?? follow_up_suggestions agentResponse;
    metadata := m ?? metadata agentResponse;
  |}.

(** [JSON.parse] on the texts of the closed instances at the end: the three
    texts it accepts are parsed as [JSON.parse] parses them, and the one
    other text used there, "<html>", is not JSON. *)
Definition parse_sample (s : jsstring) : option Parsed :=
  if decide (s = js "{}") then
    Some (ParsedObject {| answer := undefined; citations := undefined;
                          documents_referenced := undefined;
                          confidence := undefined;
                          follow_up_suggestions := undefined;
                          metadata := undefined |})
  else if decide (s = js "null") then Some ParsedNull
  else if decide (s = js "42") then Some ParsedOther
  else None.

(** ** Rendering of an agent message *)

(** [a.slice(b, e)] for indices within [0 .. ]. *)
Definition slice {A} (b e : nat) (a : list A) : list A := take (e - b) (drop b a).

(** A citation chip: the children of its two spans. *)
Record CitationChip := {
  chip_document_name : jsval jsstring;
  chip_page_number : jsval Q;
}.

(** What the block guarded by [message.response && (...)] shows.  A part
    that the JSX leaves out is [None]. *)
Record ResponseView := {
  view_sources : option (list CitationChip);
  view_confidence : jsstring;
  view_documents : Z;
  view_passages : Q;
  view_follow_ups : option (list jsstring);
  view_processed : jsstring;
}.

Definition renderResponse (r : SearchResponse) : ResponseView := {|
  view_sources :=
    match citations r with
    | val l =>
        if 0 <? Z.of_nat (length l) then
          Some (map (λ citation, {| chip_document_name := document_name citation;
                                    chip_page_number := page_number citation |}) l)
        else None
    | _ => None
    end;
  view_confidence :=
    Number_toString (Math_round (nullish_or (confidence r) 0%Q * 100)) ++ js "%";
  view_documents :=
    nullish_or
      (opt_chain (documents_referenced r) (λ l, val (Z.of_nat (length l)))) 0;
  view_passages :=
    nullish_or (opt_chain (metadata r) total_passages_retrieved) 0%Q;
  view_follow_ups :=
    match follow_up_suggestions r with
    | val l => if 0 <? Z.of_nat (length l) then Some (slice 0 3 l) else None
    | _ => None
    end;
  view_processed :=
    js "Processed in "
    ++ nullish_or (opt_chain (metadata r) processing_time) (js "0s");
|}.

Inductive MessageView :=
| UserBubble (text : jsval jsstring) (time : jsstring)
| AgentBubble (text : jsval jsstring) (details : option ResponseView).

Definition renderMessage (message : ChatMessage) : MessageView :=
  match msg_type message with
  | user => UserBubble (content message) (timestamp message)
  | agent => AgentBubble (content message) (renderResponse <$> response message)
  end.

(** The follow-up buttons shown, in display order (none when the list is
    left out). *)
Definition follow_up_buttons (v : ResponseView) : list jsstring :=
  default [] (view_follow_ups v).

(** The citation chips shown. *)
Definition citation_chips (v : ResponseView) : list CitationChip :=
  default [] (view_sources v).

Section Page.

(** [JSON.parse] on the text of [data.response]; [None] is a [SyntaxError]. *)
Variable JSON_parse : jsstring → option Parsed.

(** [typeof data.response === 'string' ? JSON.parse(data.response) : data.response] *)
Definition parsedResponse_of (r : ResponseField) : option Parsed :=
  match r with
  | RespString s => JSON_parse s
  | RespObject o => Some (ParsedObject o)
  | RespOther _ => Some ParsedOther
  | RespUndefined | RespNull => Some ParsedNull
  end.

(** The [try] block from [data] to the final [agentResponse]; [None] when an
    exception is thrown. *)
Definition agentResponse_of (data : Data) : option SearchResponse :=
  match data with
  | DataNull => None
  | DataOther => Some defaultResponse
  | DataObject success resp =>
      if success && truthy_response resp then
        parsedResponse ← parsedResponse_of resp;
        defaulted parsedResponse defaultResponse
      else Some defaultResponse
  end.

Definition try_block (outcome : FetchOutcome) : option SearchResponse :=
  match outcome with
  | FetchRejected | JsonRejected => None
  | JsonResolved data => agentResponse_of data
  end.

(** [handleQuery] after [await fetch(...)]: the rest of the [try] block, the
    [catch] and the [finally], with the requests it issues (none).  [now] and
    [time] are read once, on the path that is taken. *)
Definition handleQuery_settle (outcome : FetchOutcome) (now : Z) (time : jsstring)
    (s : State) : State * list Request :=
  let s' :=
    match try_block outcome with
    | Some agentResponse =>
        let agentMessage := {|
          msg_id := js "msg-" ++ Number_toString (now + 1);
          msg_type := agent;
          content := answer agentResponse;
          response := Some agentResponse;
          timestamp := time;
        |} in
        setChatMessages (λ prev, prev ++ [agentMessage]) s
    | None =>
        let errorMessage := {|
          msg_id := js "msg-" ++ Number_toString (now + 1);
          msg_type := agent;
          content := val error_text;
          response := None;
          timestamp := time;
        |} in
        setChatMessages (λ prev, prev ++ [errorMessage]) s
    end in
  (setLoading false s', []).

Definition handleFollowUp (suggestion : jsstring) (s : State) : State :=
  setQuery suggestion s.

(** ** The page as a transition system *)

(** A call of [handleFileSelect] suspended at its [await]: the file being
    processed, its identifier, whether [progressInterval] is still armed, and
    the files the loop has yet to reach. *)
Record Upload := {
  up_file : File;
  up_fileId : jsstring;
  up_interval : bool;
  up_rest : list File;
}.

(** [history] records, newest first, the file name and clock reading of
    every identifier computed so far; no transition reads it. *)
Record World := {
  ui : State;
  uploads : list Upload;
  inflight : list Request;
  history : list (jsstring * Z);
}.

Definition initialWorld : World :=
  {| ui := initialState; uploads := []; inflight := []; history := [] |}.

Definition with_ui (f : State → State) (w : World) : World :=
  {| ui := f (ui w); uploads := uploads w; inflight := inflight w;
     history := history w |}.

(** One turn of the [for] loop of [handleFileSelect], up to its [await]. *)
Definition iterate (files : list File) (now : Z) (w : World) : World :=
  match files with
  | [] => w   (* the loop is over; clearing the file input is no state change *)
  | file :: rest =>
      let fileId := fileId_of (file_name file) now in
      {| ui := beginUpload fileId (ui w);
         uploads := uploads w ++ [{| up_file := file; up_fileId := fileId;
                                     up_interval := true; up_rest := rest |}];
         inflight := inflight w;
         history := (file_name file, now) :: history w |}
  end.

Definition handleFileSelect (files : list File) (now : Z) (w : World) : World :=
  iterate (selectedFiles files) now w.

Inductive Event :=
| SelectFiles (files : list File) (now : Z)
| Tick (i : nat) (r : Q)
| Processed (i : nat) (r : Q) (date : jsstring) (now : Z)
| RequestDelete (i : nat)
| ConfirmDelete
| CancelDelete
| TypeQuery (text : jsstring)
| SubmitQuery (now : Z) (time : jsstring)
| Settle (i : nat) (outcome : FetchOutcome) (now : Z) (time : jsstring)
| FollowUp (suggestion : jsstring)
| SetSidebar (open : bool)
| SelectCitation (c : option Citation).

(** One event of the page; [None] when the event cannot happen in [w] (no
    such upload, timer, request or document). *)
Definition step (e : Event) (w : World) : option World :=
  match e with
  | SelectFiles files now => Some (handleFileSelect files now w)
  | Tick i r =>
      u ← uploads w !! i;
      if up_interval u then
        let cleared := tickClearsInterval (up_fileId u) (uploadingFiles (ui w)) in
        Some {| ui := setUploadingFiles (progressTick (up_fileId u) r) (ui w);
                uploads := <[i := {| up_file := up_file u; up_fileId := up_fileId u;
                                     up_interval := negb cleared;
                                     up_rest := up_rest u |}]> (uploads w);
                inflight := inflight w;
                history := history w |}
      else None
  | Processed i r date now =>
      u ← uploads w !! i;
      Some (iterate (up_rest u) now
              {| ui := completeUpload (up_file u) (up_fileId u) r date (ui w);
                 uploads := delete i (uploads w);
                 inflight := inflight w;
                 history := history w |})
  | RequestDelete i =>
      doc ← documents (ui w) !! i;
      Some (with_ui (requestDelete (doc_id doc)) w)
  | ConfirmDelete => Some (with_ui confirmDelete w)
  | CancelDelete => Some (with_ui cancelDelete w)
  | TypeQuery text => Some (with_ui (setQuery text) w)
  | SubmitQuery now time =>
      let '(s, req) := handleQuery_submit now time (ui w) in
      Some {| ui := s; uploads := uploads w;
              inflight := inflight w ++ option_list req;
              history := history w |}
  | Settle i outcome now time =>
      _ ← inflight w !! i;
      let '(s, reqs) := handleQuery_settle outcome now time (ui w) in
      Some {| ui := s; uploads := uploads w;
              inflight := delete i (inflight w) ++ reqs;
              history := history w |}
  | FollowUp suggestion => Some (with_ui (handleFollowUp suggestion) w)
  | SetSidebar open => Some (with_ui (setSidebarOpen open) w)
  | SelectCitation c => Some (with_ui (setSelectedCitation c) w)
  end.

Fixpoint run (es : list Event) (w : World) : option World :=
  match es with
  | [] => Some w
  | e :: es' => w' ← step e w; run es' w'
  end.

Definition reachable (w : World) : Prop := ∃ es, run es initialWorld = Some w.

(** ** Derived values and the rest of the JSX *)

(** [documents.reduce((sum, doc) => sum + doc.size, 0)] *)
Definition totalSize (s : State) : Z :=
  foldl (λ sum doc, sum + doc_size doc) 0 (documents s).

(** [documents.reduce((sum, doc) => sum + doc.pages, 0)] *)
Definition totalPages (s : State) : Z :=
  foldl (λ sum doc, sum + doc_pages doc) 0 (documents s).

(** [x.toFixed(1)]: the integer [n] nearest to [10 x] (the larger one of two),
    printed with a point before its last digit; a negative [x] prints as its
    opposite after a minus sign. *)
Definition toFixed1 (x : Q) : jsstring :=
  let tenths (y : Q) : jsstring :=
    let n := Qfloor (y * 10 + (1 # 2)) in
    Number_toString (n / 10) ++ js "." ++ Number_toString (n mod 10) in
  if Qle_bool 0 x then tenths x else js "-" ++ tenths (- x)%Q.

(** [`${(size / (1024 * 1024)).toFixed(1)}MB`]; a byte count divided by
    [2^20] is exact in floating point. *)
Definition sizeLabel (size : Z) : jsstring :=
  toFixed1 (inject_Z size / inject_Z (1024 * 1024)) ++ js "MB".

(** [s.split(sep)[0]] for a one-character separator. *)
Fixpoint before_first (sep : N) (s : jsstring) : jsstring :=
  match s with
  | [] => []
  | c :: s' => if (c =? sep)%N then [] else c :: before_first sep s'
  end.

(** The card of an upload in progress: the title, the width of the bar in
    percent and the number before "% uploading". *)
Record UploadCard := {
  card_title : jsstring;
  card_width : Q;
  card_percent : Z;
}.

Definition renderUploadCard (fileId : jsstring) (progress : Q) : UploadCard := {|
  card_title := before_first 45 fileId;
  card_width := progress;
  card_percent := Math_round progress;
|}.

(** The card of a listed document. *)
Record DocumentCard := {
  doc_card_name : jsstring;
  doc_card_pages : jsstring;
  doc_card_size : jsstring;
  doc_card_date : jsstring;
  doc_card_delete : State → State;
}.

Definition renderDocumentCard (doc : Document) : DocumentCard := {|
  doc_card_name := doc_name doc;
  doc_card_pages := Number_toString (doc_pages doc) ++ js " pages";
  doc_card_size := sizeLabel (doc_size doc);
  doc_card_date := uploadDate doc;
  doc_card_delete := requestDelete (doc_id doc);
|}.

(** [documents.length === 0 && !Object.keys(uploadingFiles).length]: the
    "No documents yet" placeholder is shown. *)
Definition noDocumentsShown (s : State) : bool :=
  (Z.of_nat (length (documents s)) =? 0)
  && negb (0 <? Z.of_nat (size (uploadingFiles s))).

(** The [disabled] attribute of the query input. *)
Definition inputDisabled (s : State) : bool :=
  loading s || (Z.of_nat (length (documents s)) =? 0).

(** The [disabled] attribute of the send button. *)
Definition submitDisabled (s : State) : bool :=
  loading s || negb (truthy_string (trim (query s)))
  || (Z.of_nat (length (documents s)) =? 0).

(** The citation dialog: [None] when closed ([open={!!selectedCitation}]). *)
Record CitationDialog := {
  dialog_title : jsval jsstring;
  dialog_page : jsval Q;
  dialog_excerpt : jsval jsstring;
  dialog_width : Q;
  dialog_percent : Z;
}.

Definition renderCitationDialog (s : State) : option CitationDialog :=
  match selectedCitation s with
  | Some c =>
      Some {| dialog_title := document_name c;
              dialog_page := page_number c;
              dialog_excerpt := excerpt c;
              dialog_width := (nullish_or (relevance_score c) 0 * 100)%Q;
              dialog_percent :=
                Math_round (nullish_or (relevance_score c) 0%Q * 100) |}
  | None => None
  end.

(** [open={!!deleteConfirm}] of the delete dialog. *)
Definition deleteDialogOpen (s : State) : bool :=
  match deleteConfirm s with
  | Some docId => truthy_string docId
  | None => false
  end.

(** ** A batch processed on its own *)

(** What the platform supplies while one file of a batch is processed: the
    values of [Math.random()] read by the three firings of [progressInterval]
    (at 500, 1000 and 1500 ms) that precede the 2000 ms timer, then
    [Math.random()] for the page count, [toLocaleDateString()], and the clock
    reading at which the loop reaches the next file. *)
Record Draw := {
  tick1 : Q;
  tick2 : Q;
  tick3 : Q;
  pages_draw : Q;
  date_drawn : jsstring;
  next_now : Z;
}.

(** The events of one file of the batch, the only upload in progress: three
    ticks, then the end of the wait. *)
Definition file_events (d : Draw) : list Event :=
  [Tick 0 (tick1 d); Tick 0 (tick2 d); Tick 0 (tick3 d);
   Processed 0 (pages_draw d) (date_drawn d) (next_now d)].

(** The events of a batch selected at [now] whose files are processed one
    after the other while no other upload is in progress. *)
Definition batch_events (files : list File) (now : Z) (draws : list Draw)
  : list Event :=
  SelectFiles files now :: concat (file_events <$> draws).

(** ** Predicates of the statements below *)

(** A parsed response none of whose recognized properties is there: an
    object without them, or a primitive or array. *)
Definition lacks_every_field (p : Parsed) : Prop :=
  get p answer = Some undefined
  ∧ get p citations = Some undefined
  ∧ get p documents_referenced = Some undefined
  ∧ get p confidence = Some undefined
  ∧ get p follow_up_suggestions = Some undefined
  ∧ get p metadata = Some undefined.

(** A property that holds a value: neither [undefined] nor [null]. *)
Definition has_value {T} (v : jsval T) : bool :=
  match v with
  | val _ => true
  | _ => false
  end.

(** A query fails in transport when [fetch] rejects, and in parsing when the
    body is not JSON or the text of [response] is not JSON. *)
Inductive query_failure : FetchOutcome → Prop :=
| transport_failure : query_failure FetchRejected
| body_parse_failure : query_failure JsonRejected
| response_parse_failure (s : jsstring) :
    truthy_string s = true → JSON_parse s = None →
    query_failure (JsonResolved (DataObject true (RespString s))).

(** The identifier computed from an entry of [history]. *)
Definition idof (p : jsstring * Z) : jsstring := fileId_of p.1 p.2.

(** Identifiers in use: those of the listed documents and of the uploads in
    progress. *)
Definition live_ids (w : World) : list jsstring :=
  (doc_id <$> documents (ui w)) ++ (up_fileId <$> uploads w).

(** The identifiers in use are pairwise distinct and were all computed
    during the session. *)
Definition ids_fresh (w : World) : Prop :=
  NoDup (live_ids w) ∧ live_ids w ⊆ idof <$> history w.

(** The loading flag is set exactly while a request is in flight, and there
    is never more than one. *)
Definition serialized (w : World) : Prop :=
  (loading (ui w) = false ∧ inflight w = [])
  ∨ (loading (ui w) = true ∧ length (inflight w) = 1%nat).

(** [n] completed turns: a user message followed by an agent message. *)
Fixpoint turns (n : nat) : list Role :=
  match n with
  | O => []
  | S n' => user :: agent :: turns n'
  end.

(** The conversation is a sequence of completed turns, followed by one
    unanswered user message exactly while the loading flag is set. *)
Definition conversation_shape (w : World) : Prop :=
  ∃ n, msg_type <$> chatMessages (ui w)
       = turns n ++ (if loading (ui w) then [user] else []).

(** The events of the conversation; the others belong to the registry. *)
Definition chat_event (e : Event) : bool :=
  match e with
  | TypeQuery _ | SubmitQuery _ _ | Settle _ _ _ _ | FollowUp _
  | SetSidebar _ | SelectCitation _ => true
  | _ => false
  end.

(** Events whose random draws are what [Math.random()] can return. *)
Definition valid_event (e : Event) : Prop :=
  match e with
  | Tick _ r | Processed _ r _ _ => (0 <= r < 1)%Q
  | _ => True
  end.

(** Every progress entry is at least 0 and below 130. *)
Definition progress_in_range (w : World) : Prop :=
  ∀ k v, uploadingFiles (ui w) !! k = Some v → (0 <= v < 130)%Q.

(** Every progress entry belongs to an upload in progress. *)
Definition progress_owned (w : World) : Prop :=
  ∀ k, is_Some (uploadingFiles (ui w) !! k) → k ∈ up_fileId <$> uploads w.

(** An upload in progress is for a PDF file, has only PDF files left to
    process, and its identifier is the file name, a hyphen and a clock
    reading. *)
Definition upload_ok (u : Upload) : Prop :=
  file_type (up_file u) = pdf
  ∧ Forall (λ file, file_type file = pdf) (up_rest u)
  ∧ ∃ now, up_fileId u = fileId_of (file_name (up_file u)) now.

(** A listed document is identified by its own name, a hyphen and a clock
    reading, and never carries an upload progress. *)
Definition document_ok (d : Document) : Prop :=
  (∃ now, doc_id d = fileId_of (doc_name d) now) ∧ uploadProgress d = None.

Definition registry_ok (w : World) : Prop :=
  Forall upload_ok (uploads w) ∧ Forall document_ok (documents (ui w))
  ∧ ∀ docId, deleteConfirm (ui w) = Some docId → truthy_string docId = true.

(** Draws that [Math.random()] can return. *)
Definition valid_draw (d : Draw) : Prop :=
  (0 <= tick1 d < 1)%Q ∧ (0 <= tick2 d < 1)%Q ∧ (0 <= tick3 d < 1)%Q
  ∧ (0 <= pages_draw d < 1)%Q.

(** ** Proof steps shared by the case analyses on events *)

(** Turn [H : Some w1 = Some w'] into a substitution of [w']. *)
Ltac stepped H := simpl in H; injection H as <-.

(** Case on a lookup that guards an event; the event cannot happen when the
    lookup fails. *)
Ltac guarded H l x E :=
  destruct l as [x|] eqn:E; [simpl in H | discriminate H].

(** ** Sample data *)

Definition a_pdf : File :=
  {| file_name := js "a.pdf"; file_size := 2048; file_type := pdf |}.

(** One PDF is selected at clock reading 0 and its interval fires three
    times, at 500, 1000 and 1500 ms, each time with [Math.random()] = 0.9;
    the 2000 ms timer has not fired yet. *)
Definition three_ticks : list Event :=
  [SelectFiles [a_pdf] 0; Tick 0 (9 # 10); Tick 0 (9 # 10); Tick 0 (9 # 10)].

Definition x_pdf : File :=
  {| file_name := js "x.pdf"; file_size := 1000; file_type := pdf |}.

Definition y_pdf : File :=
  {| file_name := js "y.pdf"; file_size := 3000; file_type := pdf |}.

(** A batch [x.pdf, y.pdf] is selected at 1000 ms; its loop reaches [y.pdf] at
    3000 ms, the millisecond in which [y.pdf] is selected again on its own;
    both uploads of [y.pdf] then complete. *)
Definition colliding_uploads : list Event :=
  [SelectFiles [x_pdf; y_pdf] 1000;
   Processed 0 (1 # 2) (js "1/1/2026") 3000;
   SelectFiles [y_pdf] 3000;
   Processed 0 (1 # 4) (js "1/1/2026") 5000;
   Processed 0 (3 # 4) (js "1/1/2026") 5000].

Definition blank_query : World :=
  with_ui (setQuery (js "   ")) initialWorld.

Definition five_follow_ups : SearchResponse := {|
  answer := val (js "30 days");
  citations := undefined;
  documents_referenced := undefined;
  confidence := val (82 # 100);
  follow_up_suggestions := val [js "a"; js "b"; js "c"; js "d"; js "e"];
  metadata := undefined;
|}.

Definition notes_txt : File :=
  {| file_name := js "notes.txt"; file_size := 12; file_type := js "text/plain" |}.

Definition doc (name : string) (now : Z) : Document := {|
  doc_id := fileId_of (js name) now;
  doc_name := js name;
  doc_size := 1000;
  doc_pages := 12;
  uploadDate := js "1/1/2026";
  uploadProgress := None;
|}.

Definition three_documents : State :=
  setDocuments (λ _, [doc "c.pdf" 5000; doc "b.pdf" 3000; doc "a.pdf" 1000])
    initialState.

(** Two uploads of [y.pdf] whose identifiers are computed one millisecond
    apart, and the deletion of the oldest document. *)
Definition separate_uploads : list Event :=
  [SelectFiles [x_pdf; y_pdf] 1000;
   Processed 0 (1 # 2) (js "1/1/2026") 3000;
   SelectFiles [y_pdf] 3001;
   Processed 0 (1 # 4) (js "1/1/2026") 5000;
   Processed 0 (3 # 4) (js "1/1/2026") 5001;
   RequestDelete 2;
   ConfirmDelete].

Definition after_separate_uploads : World :=
  default initialWorld (run separate_uploads initialWorld).

Definition all_null : SearchResponse := {|
  answer := null;
  citations := null;
  documents_referenced := null;
  confidence := null;
  follow_up_suggestions := null;
  metadata := null;
|}.

(** A state with one document and a question typed in. *)
Definition asking : State :=
  setQuery (js "What is the refund policy?")
    (setDocuments (λ _, [doc "terms.pdf" 1000]) initialState).

(** A response with every recognized field present. *)
Definition full_response : SearchResponse := {|
  answer := val (js "30 days");
  citations :=
    val [{| document_name := val (js "terms.pdf"); page_number := val 4%Q;
            excerpt := val (js "..."); relevance_score := val (9 # 10) |}];
  documents_referenced := val [js "terms.pdf"];
  confidence := val (82 # 100);
  follow_up_suggestions := val [js "Who pays for the return?"];
  metadata := val {| search_queries_used := val [js "refund policy"];
                     total_passages_retrieved := val 3%Q;
                     processing_time := val (js "1.2s") |};
|}.

(** Two questions, the first one answered and the second one pending, with
    a refused submission in between. *)
Definition chat_session : list Event :=
  [TypeQuery (js "first");
   SubmitQuery 1000 (js "10:15:00 AM");
   SubmitQuery 1001 (js "10:15:00 AM");
   Settle 0 (JsonResolved (DataObject true (RespObject full_response)))
     2000 (js "10:15:01 AM");
   FollowUp (js "Who pays for the return?");
   SubmitQuery 3000 (js "10:15:02 AM")].

Definition after_chat_session : World :=
  default initialWorld (run chat_session initialWorld).

Definition after_three_ticks : World :=
  default initialWorld (run three_ticks initialWorld).

(** Three documents are listed and the deletion of the newest is pending. *)
Definition pending_deletion : list Event :=
  [SelectFiles [x_pdf; y_pdf] 1000;
   Processed 0 (1 # 2) (js "1/1/2026") 3000;
   SelectFiles [y_pdf] 3001;
   Processed 0 (1 # 4) (js "1/1/2026") 5000;
   Processed 0 (3 # 4) (js "1/1/2026") 5001;
   RequestDelete 0].

Definition after_pending_deletion : World :=
  default initialWorld (run pending_deletion initialWorld).

(** The document that the second upload of [y.pdf] in [separate_uploads]
    lists. *)
Definition newest_y : Document := {|
  doc_id := js "y.pdf-3001";
  doc_name := js "y.pdf";
  doc_size := 3000;
  doc_pages := 85;
  uploadDate := js "1/1/2026";
  uploadProgress := None;
|}.

Definition two_draws : list Draw :=
  [{| tick1 := 1 # 2; tick2 := 9 # 10; tick3 := 1 # 4; pages_draw := 1 # 2;
      date_drawn := js "1/1/2026"; next_now := 3000 |};
   {| tick1 := 9 # 10; tick2 := 9 # 10; tick3 := 9 # 10; pages_draw := 1 # 4;
      date_drawn := js "1/1/2026"; next_now := 5000 |}].

(** * Properties *)

(** ** Strings *)

Lemma trimStart_whitespace (s : jsstring) :
  whitespace_only s = true → trimStart s = [].
Proof.
  induction s as [|c s IH]; simpl; [done|].
  intros [Hc Hs]%andb_prop. by rewrite Hc, IH.
Qed.

(** What [trimStart] leaves is empty or begins with a character that is not
    white space. *)
Lemma trimStart_head (s : jsstring) (c : N) (t : jsstring) :
  trimStart s = c :: t → isWhiteSpace c = false.
Proof.
  induction s as [|a s IH]; simpl; [done|].
  destruct (isWhiteSpace a) eqn:Ha; [done|].
  by intros [= <- _].
Qed.

Lemma trimStart_nil (s : jsstring) :
  trimStart s = [] → whitespace_only s = true.
Proof.
  induction s as [|a s IH]; simpl; [done|].
  destruct (isWhiteSpace a); [|done]. intros H. by rewrite IH.
Qed.

Lemma whitespace_only_rev (s : jsstring) :
  whitespace_only (rev s) = whitespace_only s.
Proof.
  unfold whitespace_only. induction s as [|a s IH]; simpl; [done|].
  rewrite forallb_app, IH. simpl. rewrite andb_true_r. apply andb_comm.
Qed.

(** [!query.trim()] holds exactly for the empty and the white-space-only
    strings. *)
Lemma trim_empty_iff (s : jsstring) :
  truthy_string (trim s) = false ↔ whitespace_only s = true.
Proof.
  split.
  - unfold trim, trimEnd. intros H.
    destruct (rev (trimStart (rev (trimStart s)))) as [|? ?] eqn:E; [|done].
    apply (f_equal (@rev N)) in E. rewrite rev_involutive in E. simpl in E.
    apply trimStart_nil in E. rewrite whitespace_only_rev in E.
    destruct (trimStart s) as [|c t] eqn:Et; [by apply trimStart_nil|].
    apply trimStart_head in Et. simpl in E. by rewrite Et in E.
  - intros H. unfold trim. by rewrite (trimStart_whitespace s H).
Qed.

(** ** C1: the guard of [handleQuery] *)

(** C1. When a request is in flight ([loading] is set) or the query text is
    empty or white space only, [handleQuery] changes nothing: the state
    (message list and loading flag included) is returned as it was and no
    request is issued; as a page event it leaves the whole world, the list of
    requests in flight included, unchanged. *)
Theorem handleQuery_noop (now : Z) (time : jsstring) (w : World) :
  loading (ui w) = true ∨ whitespace_only (query (ui w)) = true →
  handleQuery_submit now time (ui w) = (ui w, None)
  ∧ step (SubmitQuery now time) w = Some w.
Proof.
  intros H.
  assert (handleQuery_submit now time (ui w) = (ui w, None)) as Hs.
  { unfold handleQuery_submit.
    destruct H as [-> | H%trim_empty_iff].
    - by rewrite orb_true_r.
    - by rewrite H. }
  split; [done|].
  simpl. rewrite Hs. simpl. rewrite app_nil_r. by destruct w.
Qed.

(** Outside the guard the query is submitted: one user message is appended,
    the flag is set, the input is cleared and one request carries the text. *)
Lemma handleQuery_submits (now : Z) (time : jsstring) (s : State) :
  loading s = false → whitespace_only (query s) = false →
  ∃ m req,
    handleQuery_submit now time s
    = (setLoading true (setQuery [] (setChatMessages (λ prev, prev ++ [m]) s)),
       Some req)
    ∧ msg_type m = user ∧ content m = val (query s)
    ∧ req_message req = query s.
Proof.
  intros Hl Hq. unfold handleQuery_submit.
  destruct (truthy_string (trim (query s))) eqn:E.
  - rewrite Hl. simpl. eauto 10.
  - apply trim_empty_iff in E. congruence.
Qed.

(** ** C2, C3, C10: defaulting of the agent payload *)

Lemma nullish_has_value {T} (a b : jsval T) :
  has_value b = true → has_value (a ?? b) = true.
Proof. by destruct a. Qed.

Lemma nullish_undefined {T} (b : jsval T) : undefined ?? b = b.
Proof. done. Qed.

Lemma nullish_null {T} (b : jsval T) : null ?? b = b.
Proof. done. Qed.

Lemma nullish_val {T} (v : T) (b : jsval T) : val v ?? b = val v.
Proof. done. Qed.

Lemma defaulted_lacking (p : Parsed) (r : SearchResponse) :
  lacks_every_field p → defaulted p r = Some r.
Proof.
  intros (Ha & Hc & Hd & Hk & Hf & Hm). unfold defaulted.
  rewrite Ha, Hc, Hd, Hk, Hf, Hm. simpl. by destruct r.
Qed.

(** With nothing to take from the payload the response stays the default
    one, whichever branch of the [if] is taken. *)
Lemma agentResponse_lacking (resp : ResponseField) (p : Parsed) :
  parsedResponse_of resp = Some p → lacks_every_field p →
  agentResponse_of (DataObject true resp) = Some defaultResponse.
Proof.
  intros Hp Hl. simpl. destruct (truthy_response resp); [|done].
  rewrite Hp. simpl. by apply defaulted_lacking.
Qed.

(** The state after an agent turn. *)
Lemma settle_agent (outcome : FetchOutcome) (r : SearchResponse) (now : Z)
    (time : jsstring) (s : State) :
  try_block outcome = Some r →
  handleQuery_settle outcome now time s
  = (setLoading false
       (setChatMessages
          (λ prev, prev ++ [{| msg_id := js "msg-" ++ Number_toString (now + 1);
                               msg_type := agent;
                               content := answer r;
                               response := Some r;
                               timestamp := time |}]) s), []).
Proof. intros H. unfold handleQuery_settle. by rewrite H. Qed.

(** The state after a failed query. *)
Lemma settle_error (outcome : FetchOutcome) (now : Z) (time : jsstring) (s : State) :
  try_block outcome = None →
  handleQuery_settle outcome now time s
  = (setLoading false
       (setChatMessages
          (λ prev, prev ++ [{| msg_id := js "msg-" ++ Number_toString (now + 1);
                               msg_type := agent;
                               content := val error_text;
                               response := None;
                               timestamp := time |}]) s), []).
Proof. intros H. unfold handleQuery_settle. by rewrite H. Qed.

(** C2. A payload with [success] true whose parsed response has none of the
    optional fields adds exactly one bubble to the rendered conversation: an
    agent bubble with the fallback answer that shows confidence "0%", 0
    documents, 0 passages, "Processed in 0s", no citation chips and no
    follow-up list. *)
Theorem missing_fields_render_defaults (resp : ResponseField) (p : Parsed)
    (now : Z) (time : jsstring) (s : State) :
  parsedResponse_of resp = Some p → lacks_every_field p →
  renderMessage
    <$> chatMessages
          (handleQuery_settle (JsonResolved (DataObject true resp)) now time s).1
  = (renderMessage <$> chatMessages s)
    ++ [AgentBubble (val fallback_answer)
          (Some {| view_sources := None;
                   view_confidence := js "0%";
                   view_documents := 0;
                   view_passages := 0%Q;
                   view_follow_ups := None;
                   view_processed := js "Processed in 0s" |})].
Proof.
  intros Hp Hl.
  rewrite (settle_agent _ defaultResponse)
    by (simpl try_block; by apply (agentResponse_lacking resp p)).
  simpl. by rewrite fmap_app.
Qed.

(** C3. When [success] is false or the [response] field is absent, the
    appended agent message carries the fixed fallback answer and the
    all-default structured fields. *)
Theorem unsuccessful_reply_fallback (success : bool) (resp : ResponseField)
    (now : Z) (time : jsstring) (s : State) :
  success = false ∨ resp = RespUndefined →
  chatMessages
    (handleQuery_settle (JsonResolved (DataObject success resp)) now time s).1
  = chatMessages s
    ++ [{| msg_id := js "msg-" ++ Number_toString (now + 1);
           msg_type := agent;
           content :=
             val (js "No documents found matching your query. Please upload documents to get started.");
           response :=
             Some {| answer := val fallback_answer;
                     citations := val [];
                     documents_referenced := val [];
                     confidence := val 0%Q;
                     follow_up_suggestions := val [];
                     metadata :=
                       val {| search_queries_used := val [];
                              total_passages_retrieved := val 0%Q;
                              processing_time := val (js "0s") |} |};
           timestamp := time |}].
Proof.
  intros H.
  assert (agentResponse_of (DataObject success resp) = Some defaultResponse) as Hr.
  { simpl. destruct H as [-> | ->]; [done|]. by rewrite andb_false_r. }
  by rewrite (settle_agent _ defaultResponse).
Qed.

(** C10. For a payload whose parsed response is an object, a recognized
    field set to [null] is replaced by its default like a missing one, and no
    field of the resulting [SearchResponse] is [null] or [undefined]. *)
Theorem null_fields_defaulted (resp : ResponseField) (o : SearchResponse) :
  parsedResponse_of resp = Some (ParsedObject o) →
  ∃ r, agentResponse_of (DataObject true resp) = Some r
    ∧ (answer o = null → answer r = val fallback_answer)
    ∧ (citations o = null → citations r = val [])
    ∧ (documents_referenced o = null → documents_referenced r = val [])
    ∧ (confidence o = null → confidence r = val 0%Q)
    ∧ (follow_up_suggestions o = null → follow_up_suggestions r = val [])
    ∧ (metadata o = null → metadata r = metadata defaultResponse)
    ∧ has_value (answer r) && has_value (citations r)
      && has_value (documents_referenced r) && has_value (confidence r)
      && has_value (follow_up_suggestions r) && has_value (metadata r) = true.
Proof.
  intros Hp. simpl. destruct (truthy_response resp).
  - rewrite Hp. simpl. eexists. split; [done|]. simpl.
    repeat split; try (by intros ->).
    rewrite !nullish_has_value; done.
  - eexists. by repeat split.
Qed.

(** Every [SearchResponse] that [handleQuery] attaches to a message has a
    value in each of its six fields. *)
Lemma attached_response_has_values (data : Data) (r : SearchResponse) :
  agentResponse_of data = Some r →
  has_value (answer r) && has_value (citations r)
  && has_value (documents_referenced r) && has_value (confidence r)
  && has_value (follow_up_suggestions r) && has_value (metadata r) = true.
Proof.
  destruct data as [|success resp|]; simpl; [done| |by intros [= <-]].
  destruct (success && truthy_response resp); [|by intros [= <-]].
  destruct (parsedResponse_of resp) as [p|]; [|done]. simpl.
  destruct p as [|o|]; simpl; [done| |by intros [= <-]].
  intros [= <-]. simpl. rewrite !nullish_has_value; done.
Qed.

(** ** C4: failure of a query *)

Lemma query_failure_throws (outcome : FetchOutcome) :
  query_failure outcome → try_block outcome = None.
Proof.
  destruct 1 as [| |s Hs Hp]; simpl; [done..|]. by rewrite Hs, Hp.
Qed.

(** C4. After a transport or parse failure exactly one agent message is
    appended, with the fixed error text and no structured response; the
    loading flag is cleared, nothing else of the state changes, and the
    handler issues no request (no retry). *)
Theorem failure_appends_error (outcome : FetchOutcome) (now : Z)
    (time : jsstring) (s : State) :
  query_failure outcome →
  let '(s', requests) := handleQuery_settle outcome now time s in
  chatMessages s'
  = chatMessages s
    ++ [{| msg_id := js "msg-" ++ Number_toString (now + 1);
           msg_type := agent;
           content :=
             val (js "An error occurred while processing your query. Please try again.");
           response := None;
           timestamp := time |}]
  ∧ loading s' = false
  ∧ requests = []
  ∧ documents s' = documents s ∧ query s' = query s
  ∧ uploadingFiles s' = uploadingFiles s.
Proof.
  intros H%query_failure_throws. by rewrite settle_error.
Qed.

(** As a page event, settling a request removes it from those in flight and
    adds none, whatever the outcome. *)
Lemma settle_removes_request (i : nat) (outcome : FetchOutcome) (now : Z)
    (time : jsstring) (w w' : World) :
  step (Settle i outcome now time) w = Some w' →
  inflight w' = delete i (inflight w) ∧ loading (ui w') = false.
Proof.
  simpl. destruct (inflight w !! i); [|done]. simpl.
  intros [= <-]. simpl. by rewrite app_nil_r.
Qed.

(** ** C6: follow-up suggestions *)

Lemma slice_0 {A} (n : nat) (l : list A) : slice 0 n l = take n l.
Proof. unfold slice. by rewrite Nat.sub_0_r. Qed.

(** C6. For a response with [n] follow-up suggestions the page shows
    [min n 3] buttons: the first [min n 3] suggestions, in the order of the
    response. *)
Theorem follow_ups_truncated (r : SearchResponse) (l : list jsstring) :
  follow_up_suggestions r = val l →
  follow_up_buttons (renderResponse r) = take (Nat.min (length l) 3) l
  ∧ length (follow_up_buttons (renderResponse r)) = Nat.min (length l) 3.
Proof.
  intros H.
  assert (follow_up_buttons (renderResponse r) = take 3 l) as ->.
  { unfold follow_up_buttons. simpl. rewrite H.
    destruct l as [|x l]; [done|].
    replace (0 <? Z.of_nat (length (x :: l))) with true
      by (symmetry; apply Z.ltb_lt; simpl; lia).
    simpl. by rewrite slice_0. }
  split.
  - destruct (Nat.le_gt_cases (length l) 3) as [Hle|Hgt].
    + rewrite Nat.min_l by done. by rewrite !take_ge by lia.
    + by rewrite Nat.min_r by lia.
  - rewrite length_take. lia.
Qed.

(** ** C7: a batch without PDF files *)

Lemma selectedFiles_none (files : list File) :
  Forall (λ file, file_type file ≠ pdf) files → selectedFiles files = [].
Proof.
  unfold selectedFiles. induction 1 as [|file files Hf _ IH]; [done|].
  by rewrite filter_cons_False.
Qed.

(** C7. A batch in which no file has the media type "application/pdf" leaves
    the page as it was: the document list and the upload-progress map are
    unchanged, no upload is started and no identifier is computed. *)
Theorem non_pdf_batch_ignored (files : list File) (now : Z) (w : World) :
  Forall (λ file, file_type file ≠ pdf) files →
  handleFileSelect files now w = w
  ∧ documents (ui (handleFileSelect files now w)) = documents (ui w)
  ∧ uploadingFiles (ui (handleFileSelect files now w)) = uploadingFiles (ui w).
Proof.
  intros H. unfold handleFileSelect. by rewrite (selectedFiles_none files H).
Qed.

(** The same over any sequence of such batches. *)
Lemma non_pdf_batches_ignored (batches : list (list File * Z)) (w : World) :
  Forall (λ b, Forall (λ file, file_type file ≠ pdf) b.1) batches →
  run ((λ b, SelectFiles b.1 b.2) <$> batches) w = Some w.
Proof.
  induction 1 as [|[files now] batches Hb _ IH]; [done|].
  simpl in *. unfold handleFileSelect. by rewrite (selectedFiles_none files Hb).
Qed.

(** ** C8: the two steps of a deletion *)

Lemma filter_keeps_all {A} (P : A → Prop) `{!∀ x, Decision (P x)} (l : list A) :
  Forall P l → filter P l = l.
Proof.
  induction 1 as [|x l Hx _ IH]; [done|].
  by rewrite filter_cons_True, IH.
Qed.

Lemma filter_remove_one (docId : jsstring) (before after : list Document)
    (d : Document) :
  doc_id d = docId →
  Forall (λ d', doc_id d' ≠ docId) (before ++ after) →
  filter (λ doc, doc_id doc ≠ docId) (before ++ d :: after) = before ++ after.
Proof.
  intros Hd [Hb Ha]%Forall_app.
  rewrite filter_app, filter_cons_False by (intros Hn; by apply Hn).
  f_equal; by apply filter_keeps_all.
Qed.

(** The request step only records the identifier. *)
Lemma requestDelete_frame (docId : jsstring) (s : State) :
  requestDelete docId s = setDeleteConfirm (Some docId) s
  ∧ documents (requestDelete docId s) = documents s
  ∧ uploadingFiles (requestDelete docId s) = uploadingFiles s
  ∧ chatMessages (requestDelete docId s) = chatMessages s.
Proof. by repeat split. Qed.

Lemma filter_filter_same {A} (P : A → Prop) `{!∀ x, Decision (P x)} (l : list A) :
  Forall P (filter P l) ∧ filter P (filter P l) = filter P l.
Proof.
  assert (Forall P (filter P l)) as Hall.
  { apply Forall_forall. by intros x [? _]%list_elem_of_filter. }
  split; [done | by apply filter_keeps_all].
Qed.

(** C8 as it holds. Requesting the confirmation leaves the document list
    alone. The confirmed [handleDeleteDocument] removes every document with
    the given identifier and keeps the documents with another identifier as
    they were, in their order; when no other listed document shares the
    identifier, the list loses exactly that document. *)
Theorem delete_two_steps (docId : jsstring) (s : State) :
  let other := λ doc, doc_id doc ≠ docId in
  let s1 := requestDelete docId s in
  let s2 := handleDeleteDocument docId s1 in
  documents s1 = documents s
  ∧ deleteConfirm s1 = Some docId
  ∧ Forall other (documents s2)
  ∧ filter other (documents s2) = filter other (documents s)
  ∧ ∀ before d after,
      documents s = before ++ d :: after → doc_id d = docId →
      Forall other (before ++ after) →
      documents s2 = before ++ after.
Proof.
  intros other s1 s2. split; [done|]. split; [done|].
  destruct (filter_filter_same other (documents s)) as [Hall Hsame].
  split; [done|]. split; [done|].
  intros before d after Hs Hd Hothers. simpl. rewrite Hs.
  by apply filter_remove_one.
Qed.

(** In general the confirm step keeps exactly the documents with another
    identifier, in order. *)
Lemma handleDeleteDocument_spec (docId : jsstring) (s : State) :
  documents (handleDeleteDocument docId s) `sublist_of` documents s
  ∧ ∀ d, d ∈ documents (handleDeleteDocument docId s)
         ↔ d ∈ documents s ∧ doc_id d ≠ docId.
Proof.
  simpl. split; [apply sublist_filter|].
  intros d. rewrite list_elem_of_filter. tauto.
Qed.

(** The dialog's action runs [handleDeleteDocument] on the pending
    identifier. *)
Lemma confirmDelete_runs (docId : jsstring) (s : State) :
  deleteConfirm s = Some docId → truthy_string docId = true →
  documents (confirmDelete s) = documents (handleDeleteDocument docId s).
Proof. intros H Ht. unfold confirmDelete. by rewrite H, Ht. Qed.

(** ** Identifiers: [`${file.name}-${Date.now()}`] *)

Lemma digits_no_dash (d : Decimal.uint) : 45%N ∉ digits d.
Proof.
  induction d; simpl; rewrite ?not_elem_of_cons;
    [apply not_elem_of_nil | split; [done | assumption]..].
Qed.

Lemma digits_inj (d d' : Decimal.uint) : digits d = digits d' → d = d'.
Proof.
  revert d'. induction d as [|d IH|d IH|d IH|d IH|d IH|d IH|d IH|d IH|d IH|d IH];
    intros [|d'|d'|d'|d'|d'|d'|d'|d'|d'|d']; simpl; try discriminate;
    try reflexivity; intros [= H]; f_equal; by apply IH.
Qed.

Lemma Number_toString_no_dash (n : Z) : 0 ≤ n → 45%N ∉ Number_toString n.
Proof.
  destruct n as [|p|p]; simpl; intros Hn.
  - rewrite not_elem_of_cons. split; [done | apply not_elem_of_nil].
  - apply digits_no_dash.
  - lia.
Qed.

Lemma Number_toString_inj (a b : Z) :
  0 ≤ a → 0 ≤ b → Number_toString a = Number_toString b → a = b.
Proof.
  assert (∀ p, digits (Pos.to_uint p) ≠ [48%N]) as Hz.
  { intros p H. change [48%N] with (digits (Decimal.D0 Decimal.Nil)) in H.
    apply digits_inj in H. by apply Unsigned.to_uint_nonzero in H. }
  intros Ha Hb.
  destruct a as [|p|p], b as [|q|q]; simpl; try lia; intros H.
  - symmetry in H. by apply Hz in H.
  - by apply Hz in H.
  - apply digits_inj, Unsigned.to_uint_inj in H. by subst.
Qed.

(** A string cut at its last occurrence of a separator. *)
Lemma split_at_separator {A} (sep : A) (l1 l2 d1 d2 : list A) :
  sep ∉ d1 → sep ∉ d2 →
  l1 ++ sep :: d1 = l2 ++ sep :: d2 → l1 = l2 ∧ d1 = d2.
Proof.
  intros H1 H2. revert l2.
  induction l1 as [|a l1 IH]; intros [|b l2]; simpl; intros H.
  - by injection H.
  - injection H as -> Hd. destruct H1. rewrite Hd. apply elem_of_app. right. left.
  - injection H as -> Hd. destruct H2. rewrite <- Hd. apply elem_of_app. right. left.
  - injection H as -> Hl. by destruct (IH l2 Hl) as [-> ->].
Qed.

(** With clock readings that are not negative, the identifier determines
    the file name and the clock reading. *)
Lemma fileId_of_inj (n1 n2 : jsstring) (t1 t2 : Z) :
  0 ≤ t1 → 0 ≤ t2 →
  fileId_of n1 t1 = fileId_of n2 t2 → n1 = n2 ∧ t1 = t2.
Proof.
  intros H1 H2. unfold fileId_of. change (js "-") with [45%N]. simpl.
  intros [-> Ht]%split_at_separator; try by apply Number_toString_no_dash.
  split; [done|]. by apply Number_toString_inj.
Qed.

(** ** C9: uniqueness of document identifiers *)

Lemma submseteq_NoDup_inv {A} (l k : list A) : l ⊆+ k → NoDup k → NoDup l.
Proof.
  intros [k' Hk]%submseteq_Permutation. rewrite Hk.
  by intros [? _]%NoDup_app.
Qed.

Lemma ids_fresh_shrink (w w' : World) :
  live_ids w' ⊆+ live_ids w → history w' = history w →
  ids_fresh w → ids_fresh w'.
Proof.
  intros Hsub Hh [Hnd Hin]. split.
  - by apply (submseteq_NoDup_inv _ (live_ids w)).
  - intros x Hx. rewrite Hh. apply Hin. by apply (elem_of_submseteq _ _ _ Hx).
Qed.

Lemma with_ui_fresh (f : State → State) (w : World) :
  documents (f (ui w)) `sublist_of` documents (ui w) →
  ids_fresh w → ids_fresh (with_ui f w).
Proof.
  intros Hsub. apply ids_fresh_shrink; [|done].
  unfold live_ids. simpl. apply sublist_submseteq, sublist_app; [|done].
  by apply fmap_sublist.
Qed.

Lemma iterate_history (files : list File) (now : Z) (w : World) :
  history w `suffix_of` history (iterate files now w).
Proof.
  destruct files as [|file rest]; simpl; [done|]. by apply suffix_cons_r.
Qed.

Lemma iterate_fresh (files : list File) (now : Z) (w : World) :
  NoDup (idof <$> history (iterate files now w)) →
  ids_fresh w → ids_fresh (iterate files now w).
Proof.
  destruct files as [|file rest]; simpl; [done|].
  intros [Hnew _]%NoDup_cons [Hnd Hin]. unfold idof at 1 in Hnew. simpl in Hnew.
  unfold ids_fresh, live_ids in *. simpl.
  rewrite fmap_app, app_assoc. simpl. split.
  - apply NoDup_app. split; [done|]. split; [|apply NoDup_singleton].
    intros x Hx ->%list_elem_of_singleton. by apply Hnew, Hin.
  - intros x [Hx | ->%list_elem_of_singleton]%elem_of_app.
    + right. by apply Hin.
    + left.
Qed.

Lemma step_history (e : Event) (w w' : World) :
  step e w = Some w' → history w `suffix_of` history w'.
Proof.
  destruct e; simpl; intros H; simplify_option_eq;
    try (repeat case_match; simplify_eq; simpl); try done.
  - apply iterate_history.
  - match goal with
    | |- _ `suffix_of` history (iterate ?files ?now ?w0) =>
        exact (iterate_history files now w0)
    end.
Qed.

Lemma handleQuery_submit_documents (now : Z) (time : jsstring) (s : State) :
  documents (handleQuery_submit now time s).1 = documents s.
Proof. unfold handleQuery_submit. by case_match. Qed.

Lemma handleQuery_settle_documents (outcome : FetchOutcome) (now : Z)
    (time : jsstring) (s : State) :
  documents (handleQuery_settle outcome now time s).1 = documents s.
Proof. unfold handleQuery_settle. by case_match. Qed.

Lemma step_fresh (e : Event) (w w' : World) :
  step e w = Some w' → NoDup (idof <$> history w') →
  ids_fresh w → ids_fresh w'.
Proof.
  destruct e as [files now | i r | i r date now | i | | | text | now time
                | i outcome now time | suggestion | open | c];
    simpl; intros Hstep Hnd Hw;
    try (stepped Hstep; by apply with_ui_fresh).
  - (* SelectFiles *)
    stepped Hstep. by apply iterate_fresh.
  - (* Tick: the upload keeps its identifier *)
    guarded Hstep (uploads w !! i) u Hu.
    destruct (up_interval u); [|done]. stepped Hstep.
    revert Hw. apply ids_fresh_shrink; [|done].
    unfold live_ids. simpl. rewrite list_fmap_insert. simpl.
    rewrite list_insert_id; [done|]. by rewrite list_lookup_fmap, Hu.
  - (* Processed: the identifier moves from the uploads to the documents *)
    guarded Hstep (uploads w !! i) u Hu. stepped Hstep.
    apply iterate_fresh; [done|].
    revert Hw. apply ids_fresh_shrink; [|done].
    unfold live_ids. simpl. apply Permutation_submseteq.
    rewrite list_fmap_delete. simpl.
    etrans; [apply Permutation_middle|]. apply Permutation_app_head.
    symmetry. apply delete_Permutation. by rewrite list_lookup_fmap, Hu.
  - (* RequestDelete *)
    guarded Hstep (documents (ui w) !! i) d Hd. stepped Hstep.
    by apply with_ui_fresh.
  - (* ConfirmDelete: the documents left are a sublist *)
    stepped Hstep. apply with_ui_fresh; [|done].
    unfold confirmDelete. destruct (deleteConfirm (ui w)) as [docId|]; [|done].
    destruct (truthy_string docId); [|done]. simpl. apply sublist_filter.
  - (* SubmitQuery *)
    pose proof (handleQuery_submit_documents now time (ui w)) as Hd.
    destruct (handleQuery_submit now time (ui w)) as [s req].
    stepped Hstep. revert Hw. apply ids_fresh_shrink; [|done].
    unfold live_ids. simpl in *. by rewrite Hd.
  - (* Settle *)
    guarded Hstep (inflight w !! i) req Hreq.
    stepped Hstep. revert Hw. apply ids_fresh_shrink; [|done].
    unfold live_ids. simpl. by destruct (try_block outcome).
Qed.

Lemma run_history (es : list Event) (w w' : World) :
  run es w = Some w' → history w `suffix_of` history w'.
Proof.
  revert w. induction es as [|e es IH]; simpl; intros w Hrun.
  - by injection Hrun as <-.
  - guarded Hrun (step e w) w1 Hstep.
    etrans; [by eapply step_history | by apply IH].
Qed.

Lemma run_fresh (es : list Event) (w w' : World) :
  run es w = Some w' → NoDup (idof <$> history w') →
  ids_fresh w → ids_fresh w'.
Proof.
  revert w. induction es as [|e es IH]; simpl; intros w Hrun Hnd Hw.
  - by injection Hrun as <-.
  - guarded Hrun (step e w) w1 Hstep.
    apply (IH w1); [done..|].
    apply (step_fresh e w); [done| |done].
    destruct (run_history es w1 w' Hrun) as [k Hk].
    rewrite Hk, fmap_app in Hnd. by apply NoDup_app in Hnd as (_ & _ & ?).
Qed.

(** C9 as it holds. In every reachable state the identifiers of the listed
    documents are pairwise distinct, provided no two uploads of the session
    had both the same file name and the same clock reading, and no clock
    reading was negative. *)
Theorem document_ids_distinct (w : World) :
  reachable w →
  NoDup (history w) → Forall (λ p, 0 ≤ p.2) (history w) →
  NoDup (doc_id <$> documents (ui w)).
Proof.
  intros [es Hrun] Hnd Hpos.
  assert (NoDup (idof <$> history w)) as Hids.
  { apply NoDup_fmap_2_strong; [|done].
    intros [n1 t1] [n2 t2] H1 H2 Heq.
    rewrite Forall_forall in Hpos.
    apply Hpos in H1 as ?. apply Hpos in H2 as ?. simpl in *.
    by destruct (fileId_of_inj n1 n2 t1 t2) as [-> ->]. }
  destruct (run_fresh es initialWorld w Hrun Hids) as [Hlive _].
  { split; [apply NoDup_nil_2 | done]. }
  by apply NoDup_app in Hlive as [? _].
Qed.

(** ** C5: the upload-progress entry *)

(** A tick touches no entry but its own. *)
Lemma progressTick_other (fileId other : jsstring) (r : Q) (prev : gmap jsstring Q) :
  other ≠ fileId → progressTick fileId r prev !! other = prev !! other.
Proof.
  intros H. unfold progressTick. case_match; [done|].
  by rewrite lookup_insert_ne.
Qed.

(** A tick never lowers the entry. *)
Lemma progressTick_monotone (fileId : jsstring) (r v : Q) (prev : gmap jsstring Q) :
  (0 <= r)%Q → prev !! fileId = Some v →
  ∃ v', progressTick fileId r prev !! fileId = Some v' ∧ (v <= v')%Q.
Proof.
  intros Hr Hv. unfold progressTick, current_progress. rewrite Hv.
  destruct (Qle_bool 90 _) eqn:E.
  - exists v. split; [done | lra].
  - rewrite lookup_insert_eq. eexists. split; [done|].
    destruct (Qeq_bool v 0) eqn:Ez; [apply Qeq_bool_iff in Ez|]; lra.
Qed.

(** A tick leaves an entry that has reached 90 alone, and moves an entry
    below 90 by less than 40: the entry stays below 130, not below 90. *)
Lemma progressTick_step (fileId : jsstring) (r v : Q) (prev : gmap jsstring Q) :
  (0 <= r < 1)%Q → prev !! fileId = Some v →
  if Qle_bool 90 v then progressTick fileId r prev = prev
  else ∃ v', progressTick fileId r prev !! fileId = Some v'
             ∧ (v' == v + r * 40)%Q ∧ (v' < 130)%Q.
Proof.
  intros Hr Hv. unfold progressTick, current_progress. rewrite Hv.
  destruct (Qeq_bool v 0) eqn:Ez.
  - apply Qeq_bool_iff in Ez.
    replace (Qle_bool 90 v) with false
      by (symmetry; apply not_true_is_false; rewrite Qle_bool_iff; lra).
    simpl. rewrite lookup_insert_eq. eexists. split; [done|]. lra.
  - destruct (Qle_bool 90 v) eqn:E; [done|].
    rewrite lookup_insert_eq. eexists. split; [done|].
    assert (¬ (90 <= v)%Q) by (rewrite <- Qle_bool_iff; congruence). lra.
Qed.

(** ** One query at a time *)

Lemma with_ui_serialized (f : State → State) (w : World) :
  loading (f (ui w)) = loading (ui w) → serialized w → serialized (with_ui f w).
Proof. unfold serialized. simpl. by intros ->. Qed.

Lemma iterate_serialized (files : list File) (now : Z) (w : World) :
  serialized w → serialized (iterate files now w).
Proof. by destruct files. Qed.

Lemma step_serialized (e : Event) (w w' : World) :
  step e w = Some w' → serialized w → serialized w'.
Proof.
  destruct e as [files now | i r | i r date now | i | | | text | now time
                | i outcome now time | suggestion | open | c];
    simpl; intros Hstep Hw;
    try (by stepped Hstep).
  - (* SelectFiles *)
    stepped Hstep. by apply iterate_serialized.
  - (* Tick *)
    guarded Hstep (uploads w !! i) u Hu.
    destruct (up_interval u); [|done]. by stepped Hstep.
  - (* Processed *)
    guarded Hstep (uploads w !! i) u Hu. stepped Hstep.
    by apply iterate_serialized.
  - (* RequestDelete *)
    guarded Hstep (documents (ui w) !! i) d Hd. by stepped Hstep.
  - (* ConfirmDelete *)
    stepped Hstep. apply with_ui_serialized; [|done].
    unfold confirmDelete. by repeat case_match.
  - (* SubmitQuery: idle and accepted, idle and refused, or busy *)
    unfold handleQuery_submit in Hstep. destruct Hw as [[Hl Hi] | [Hl Hi]].
    + rewrite Hl, Hi, orb_false_r in Hstep.
      destruct (negb _); stepped Hstep; [by left | by right].
    + rewrite Hl, orb_true_r in Hstep. stepped Hstep.
      right. simpl. by rewrite app_nil_r.
  - (* Settle: the one request in flight is the one that settles *)
    guarded Hstep (inflight w !! i) req Hreq.
    stepped Hstep. left. simpl. split; [done|].
    destruct Hw as [[_ Hi] | [_ Hi]]; [by rewrite Hi in Hreq|].
    destruct (inflight w) as [|? [|? ?]]; try done.
    by destruct i.
Qed.

(** At most one query is in flight in any reachable state. *)
Lemma reachable_serialized (w : World) : reachable w → serialized w.
Proof.
  intros [es Hrun].
  assert (serialized initialWorld) as H0 by (by left).
  revert Hrun H0. generalize initialWorld.
  induction es as [|e es IH]; simpl; intros w0 Hrun H0.
  - by injection Hrun as <-.
  - guarded Hrun (step e w0) w1 Hstep.
    eauto using step_serialized.
Qed.

(** * Further properties of the page *)

(** ** [handleQuery]: accepted submissions and settled requests *)

(** Outside its guard [handleQuery] appends one user message holding the
    query as typed, clears the input, sets the loading flag, leaves the
    registry alone and issues one POST to /api/agent whose message is the
    untrimmed query. *)
Theorem handleQuery_accepts (now : Z) (time : jsstring) (s : State) :
  loading s = false → whitespace_only (query s) = false →
  ∃ s', handleQuery_submit now time s
        = (s', Some {| req_url := js "/api/agent";
                       req_method := js "POST";
                       req_content_type := js "application/json";
                       req_message := query s;
                       req_agent_id := js "6909a9b15d0b2c2413178b1e" |})
    ∧ chatMessages s'
      = chatMessages s
        ++ [{| msg_id := js "msg-" ++ Number_toString now;
               msg_type := user;
               content := val (query s);
               response := None;
               timestamp := time |}]
    ∧ query s' = [] ∧ loading s' = true
    ∧ documents s' = documents s ∧ uploadingFiles s' = uploadingFiles s
    ∧ deleteConfirm s' = deleteConfirm s.
Proof.
  intros Hl Hq. unfold handleQuery_submit.
  destruct (truthy_string (trim (query s))) eqn:E.
  - rewrite Hl. simpl. eexists. by repeat split.
  - apply trim_empty_iff in E. congruence.
Qed.

(** Whatever the outcome of the request, settling it appends exactly one
    agent message whose text is defined, clears the loading flag, changes
    nothing else and issues no request; a message without a structured
    response carries the error text. *)
Theorem settle_appends_one_agent_turn (outcome : FetchOutcome) (now : Z)
    (time : jsstring) (s : State) :
  ∃ m, handleQuery_settle outcome now time s
       = (setLoading false (setChatMessages (λ prev, prev ++ [m]) s), [])
    ∧ msg_type m = agent
    ∧ msg_id m = js "msg-" ++ Number_toString (now + 1)
    ∧ timestamp m = time
    ∧ has_value (content m) = true
    ∧ (response m = None → content m = val error_text)
    ∧ (∀ r, response m = Some r → content m = answer r).
Proof.
  destruct (try_block outcome) as [r|] eqn:E.
  - rewrite (settle_agent _ r) by done. eexists. split; [done|]. simpl.
    repeat split; [|done|by intros ? [= <-]].
    destruct outcome as [| |data]; simpl in E; [done..|].
    apply attached_response_has_values in E.
    by destruct (has_value (answer r)).
  - rewrite settle_error by done. eexists. split; [done|]. by repeat split.
Qed.

(** A reply whose body is the JSON value [null], or whose [response] text
    parses to [null], ends in the [catch] block like a malformed one: reading
    a property of [null] throws, and the error message is appended. *)
Theorem null_payload_appends_error (outcome : FetchOutcome) (now : Z)
    (time : jsstring) (s : State) :
  outcome = JsonResolved DataNull
  ∨ (∃ text, outcome = JsonResolved (DataObject true (RespString text))
             ∧ truthy_string text = true
             ∧ JSON_parse text = Some ParsedNull) →
  chatMessages (handleQuery_settle outcome now time s).1
  = chatMessages s
    ++ [{| msg_id := js "msg-" ++ Number_toString (now + 1);
           msg_type := agent;
           content := val error_text;
           response := None;
           timestamp := time |}].
Proof.
  intros H. rewrite settle_error; [done|].
  destruct H as [-> | (text & -> & Ht & Hp)]; simpl; [done|].
  by rewrite Ht, Hp.
Qed.

(** A response in which the six recognized fields all hold a value is
    attached to the agent message as it came, and its answer is the text of
    the message. *)
Theorem complete_response_kept (resp : ResponseField) (o : SearchResponse)
    (now : Z) (time : jsstring) (s : State) :
  parsedResponse_of resp = Some (ParsedObject o) →
  truthy_response resp = true →
  has_value (answer o) && has_value (citations o)
  && has_value (documents_referenced o) && has_value (confidence o)
  && has_value (follow_up_suggestions o) && has_value (metadata o) = true →
  chatMessages
    (handleQuery_settle (JsonResolved (DataObject true resp)) now time s).1
  = chatMessages s
    ++ [{| msg_id := js "msg-" ++ Number_toString (now + 1);
           msg_type := agent;
           content := answer o;
           response := Some o;
           timestamp := time |}].
Proof.
  intros Hp Ht Hv.
  assert (agentResponse_of (DataObject true resp) = Some o) as Hr.
  { simpl. rewrite Ht, Hp. simpl.
    destruct o as [[] [] [] [] [] []]; simpl in Hv; try done. }
  by rewrite (settle_agent _ o).
Qed.

(** A [response] sent as JSON text is handled as the object it parses to. *)
Theorem response_text_as_object (text : jsstring) (o : SearchResponse)
    (success : bool) (now : Z) (time : jsstring) (s : State) :
  truthy_string text = true → JSON_parse text = Some (ParsedObject o) →
  handleQuery_settle (JsonResolved (DataObject success (RespString text))) now time s
  = handleQuery_settle (JsonResolved (DataObject success (RespObject o))) now time s.
Proof.
  intros Ht Hp. unfold handleQuery_settle. simpl. by rewrite Ht, Hp.
Qed.

(** ** [handleFollowUp] and the send button *)

(** Clicking a follow-up suggestion only fills the input: no message is
    added and the flag is untouched. The next submission, when none is in
    flight and the suggestion is not blank, sends exactly the suggestion. *)
Theorem follow_up_then_submit (suggestion : jsstring) (now : Z)
    (time : jsstring) (s : State) :
  loading s = false → whitespace_only suggestion = false →
  chatMessages (handleFollowUp suggestion s) = chatMessages s
  ∧ loading (handleFollowUp suggestion s) = loading s
  ∧ ∃ s' req,
      handleQuery_submit now time (handleFollowUp suggestion s) = (s', Some req)
      ∧ req_message req = suggestion
      ∧ content <$> last (chatMessages s') = Some (val suggestion)
      ∧ msg_type <$> last (chatMessages s') = Some user.
Proof.
  intros Hl Hq. split; [done|]. split; [done|].
  unfold handleQuery_submit, handleFollowUp. simpl.
  destruct (truthy_string (trim suggestion)) eqn:E.
  - rewrite Hl. simpl. eexists _, _. split; [done|]. split; [done|].
    simpl. by rewrite last_snoc.
  - apply trim_empty_iff in E. congruence.
Qed.

(** The send button is enabled exactly when [handleQuery] would accept the
    submission and the registry is not empty; the input is disabled only when
    the button is. *)
Theorem send_button_matches_guard (now : Z) (time : jsstring) (s : State) :
  (submitDisabled s = false
   ↔ is_Some (handleQuery_submit now time s).2 ∧ documents s ≠ [])
  ∧ (inputDisabled s = true → submitDisabled s = true).
Proof.
  unfold submitDisabled, inputDisabled, handleQuery_submit.
  destruct (loading s), (truthy_string (trim (query s))),
    (documents s) as [|d l]; simpl; (split; [split|]);
    try done; try (intros [[? [=]] ?]; done); try (intros [? ?]; done);
    try (intros _; split; [by eexists | done]).
Qed.

(** ** The conversation over a session *)

Lemma iterate_chat (files : list File) (now : Z) (w : World) :
  chatMessages (ui (iterate files now w)) = chatMessages (ui w)
  ∧ loading (ui (iterate files now w)) = loading (ui w).
Proof. by destruct files. Qed.

Lemma step_chat_prefix (e : Event) (w w' : World) :
  step e w = Some w' →
  chatMessages (ui w) `prefix_of` chatMessages (ui w').
Proof.
  destruct e as [files now | i r | i r date now | i | | | text | now time
                | i outcome now time | suggestion | open | c];
    simpl; intros Hstep;
    try (by stepped Hstep).
  - stepped Hstep. unfold handleFileSelect. by destruct (selectedFiles files).
  - guarded Hstep (uploads w !! i) u Hu.
    destruct (up_interval u); [|done]. by stepped Hstep.
  - guarded Hstep (uploads w !! i) u Hu. stepped Hstep.
    by destruct (up_rest u).
  - guarded Hstep (documents (ui w) !! i) d Hd. by stepped Hstep.
  - stepped Hstep. simpl. unfold confirmDelete. by repeat case_match.
  - unfold handleQuery_submit in Hstep.
    destruct (_ || _); stepped Hstep; [done|]. by apply prefix_app_r.
  - guarded Hstep (inflight w !! i) req Hreq. stepped Hstep.
    destruct (try_block outcome); by apply prefix_app_r.
Qed.

(** Messages are only ever appended: after any sequence of events the
    earlier conversation is a prefix of the later one, so no message is
    removed, reordered or rewritten. *)
Theorem messages_append_only (es : list Event) (w w' : World) :
  run es w = Some w' →
  chatMessages (ui w) `prefix_of` chatMessages (ui w').
Proof.
  revert w. induction es as [|e es IH]; simpl; intros w Hrun.
  - by injection Hrun as <-.
  - guarded Hrun (step e w) w1 Hstep.
    etrans; [by eapply step_chat_prefix | by apply IH].
Qed.

Lemma turns_snoc (n : nat) : turns n ++ [user; agent] = turns (S n).
Proof. induction n as [|n IH]; [done|]. simpl. by rewrite IH. Qed.

Lemma shape_same (w w' : World) :
  chatMessages (ui w') = chatMessages (ui w) →
  loading (ui w') = loading (ui w) →
  conversation_shape w → conversation_shape w'.
Proof. unfold conversation_shape. by intros -> ->. Qed.

Lemma step_settle (i : nat) (outcome : FetchOutcome) (now : Z)
    (time : jsstring) (w w' : World) :
  step (Settle i outcome now time) w = Some w' →
  is_Some (inflight w !! i)
  ∧ ui w' = (handleQuery_settle outcome now time (ui w)).1.
Proof.
  unfold step. destruct (inflight w !! i) as [req|]; simpl; [|done].
  intros [= <-]. split; [by eexists | done].
Qed.

Lemma settle_roles (outcome : FetchOutcome) (now : Z) (time : jsstring)
    (s : State) :
  msg_type <$> chatMessages (handleQuery_settle outcome now time s).1
  = (msg_type <$> chatMessages s) ++ [agent]
  ∧ loading (handleQuery_settle outcome now time s).1 = false.
Proof.
  unfold handleQuery_settle. destruct (try_block outcome); simpl;
    by rewrite fmap_app.
Qed.

Lemma step_shape (e : Event) (w w' : World) :
  step e w = Some w' → serialized w →
  conversation_shape w → conversation_shape w'.
Proof.
  destruct e as [files now | i r | i r date now | i | | | text | now time
                | i outcome now time | suggestion | open | c];
    intros Hstep Hser Hw;
    try (stepped Hstep; by apply (shape_same w)).
  - stepped Hstep. revert Hw.
    by apply shape_same; unfold handleFileSelect; destruct (selectedFiles files).
  - simpl in Hstep. guarded Hstep (uploads w !! i) u Hu.
    destruct (up_interval u); [|done]. stepped Hstep.
    by apply (shape_same w).
  - simpl in Hstep. guarded Hstep (uploads w !! i) u Hu. stepped Hstep.
    revert Hw. by apply shape_same; destruct (up_rest u).
  - simpl in Hstep. guarded Hstep (documents (ui w) !! i) d Hd. stepped Hstep.
    by apply (shape_same w).
  - stepped Hstep. revert Hw.
    apply shape_same; simpl; unfold confirmDelete; by repeat case_match.
  - simpl in Hstep. unfold handleQuery_submit in Hstep.
    destruct (negb (truthy_string (trim (query (ui w)))) || loading (ui w)) eqn:Hg.
    + stepped Hstep. by apply (shape_same w).
    + apply orb_false_elim in Hg as [_ Hl]. stepped Hstep.
      destruct Hw as [n Hn]. rewrite Hl in Hn. exists n. simpl.
      by rewrite fmap_app, Hn, app_nil_r.
  - apply step_settle in Hstep as [[req Hreq] Hui].
    destruct Hser as [[_ Hi] | [Hl _]]; [by rewrite Hi in Hreq|].
    destruct Hw as [n Hn]. rewrite Hl in Hn.
    destruct (settle_roles outcome now time (ui w)) as [Hroles Hidle].
    exists (S n). rewrite Hui, Hroles, Hidle, Hn, <- app_assoc. simpl.
    rewrite app_nil_r. exact (turns_snoc n).
Qed.

Lemma run_serialized_shape (es : list Event) (w w' : World) :
  run es w = Some w' → serialized w ∧ conversation_shape w →
  serialized w' ∧ conversation_shape w'.
Proof.
  revert w. induction es as [|e es IH]; simpl; intros w Hrun [Hs Hc].
  - by injection Hrun as <-.
  - guarded Hrun (step e w) w1 Hstep.
    apply (IH w1 Hrun). split.
    + by apply (step_serialized e w).
    + by apply (step_shape e w).
Qed.

(** In every reachable state the conversation alternates: user and agent
    messages come in pairs, user first, and the last message is an
    unanswered user message exactly while a request is in flight. *)
Theorem conversation_alternates (w : World) :
  reachable w → conversation_shape w.
Proof.
  intros [es Hrun].
  apply (run_serialized_shape es initialWorld w Hrun).
  split; [by left | by exists 0%nat].
Qed.

(** ** The registry: totals, new documents and cards *)

Lemma foldl_sum_shift {A} (f : A → Z) (l : list A) (z : Z) :
  foldl (λ sum x, sum + f x) z l = z + foldl (λ sum x, sum + f x) 0 l.
Proof.
  revert z. induction l as [|a l IH]; intros z; simpl; [lia|].
  rewrite (IH (z + f a)), (IH (0 + f a)). lia.
Qed.

Lemma foldl_sum_app {A} (f : A → Z) (l k : list A) :
  foldl (λ sum x, sum + f x) 0 (l ++ k)
  = foldl (λ sum x, sum + f x) 0 l + foldl (λ sum x, sum + f x) 0 k.
Proof. by rewrite foldl_app, foldl_sum_shift. Qed.

Lemma Math_floor_percent (r : Q) :
  (0 <= r < 1)%Q → 0 ≤ Math_floor (r * 100) ≤ 99.
Proof.
  intros [H0 H1]. unfold Math_floor. split.
  - change 0 with (Qfloor 0). apply Qfloor_resp_le. lra.
  - assert (Qfloor (r * 100) < 100); [|lia].
    rewrite Zlt_Qlt. eapply Qle_lt_trans; [apply Qfloor_le|].
    change (inject_Z 100) with 100%Q. lra.
Qed.

(** A completed upload puts one new document at the head of the list: it
    takes its identifier from the upload, its name and size from the file,
    and a page count between 10 and 109; the documents listed before stay
    behind it. *)
Theorem completed_upload_document (file : File) (fileId : jsstring) (r : Q)
    (date : jsstring) (s : State) :
  (0 <= r < 1)%Q →
  ∃ newDoc,
    documents (completeUpload file fileId r date s) = newDoc :: documents s
    ∧ doc_id newDoc = fileId
    ∧ doc_name newDoc = file_name file
    ∧ doc_size newDoc = file_size file
    ∧ uploadDate newDoc = date
    ∧ 10 ≤ doc_pages newDoc ≤ 109
    ∧ uploadingFiles (completeUpload file fileId r date s) !! fileId = None.
Proof.
  intros Hr. pose proof (Math_floor_percent r Hr) as Hp.
  eexists. split; [done|]. do 4 (split; [done|]).
  split; [cbn [doc_pages]; lia|]. apply lookup_delete_eq.
Qed.

(** The totals shown in the sidebar and the header follow an upload: the
    page total grows by the page count of the document that the upload puts
    at the head of the list, the size total by the size of the file, the
    number of files by one. *)
Theorem totals_after_upload (file : File) (fileId : jsstring) (r : Q)
    (date : jsstring) (s : State) :
  ∃ newDoc,
    documents (completeUpload file fileId r date s) = newDoc :: documents s
    ∧ totalPages (completeUpload file fileId r date s)
      = totalPages s + doc_pages newDoc
    ∧ totalSize (completeUpload file fileId r date s)
      = totalSize s + file_size file
    ∧ length (documents (completeUpload file fileId r date s))
      = S (length (documents s)).
Proof.
  eexists. split; [reflexivity|].
  unfold totalPages, totalSize. cbn [documents completeUpload setDocuments
    setUploadingFiles foldl doc_pages doc_size length].
  rewrite (foldl_sum_shift doc_pages), (foldl_sum_shift doc_size).
  repeat split; lia.
Qed.

(** Deleting the one document that carries an identifier lowers the totals
    by its pages and its size, and the number of files by one. *)
Theorem totals_after_delete (s : State) (before after : list Document)
    (d : Document) :
  documents s = before ++ d :: after →
  Forall (λ d', doc_id d' ≠ doc_id d) (before ++ after) →
  totalPages (handleDeleteDocument (doc_id d) s) = totalPages s - doc_pages d
  ∧ totalSize (handleDeleteDocument (doc_id d) s) = totalSize s - doc_size d
  ∧ S (length (documents (handleDeleteDocument (doc_id d) s)))
    = length (documents s).
Proof.
  intros Hs Hothers. unfold totalPages, totalSize. simpl. rewrite Hs.
  rewrite (filter_remove_one (doc_id d) before after d) by done.
  rewrite !foldl_sum_app, !length_app. simpl.
  rewrite (foldl_sum_shift doc_pages after (0 + doc_pages d)),
    (foldl_sum_shift doc_size after (0 + doc_size d)). lia.
Qed.

Lemma before_first_app (sep : N) (s rest : jsstring) :
  sep ∉ s → before_first sep (s ++ sep :: rest) = s.
Proof.
  induction s as [|c s IH]; simpl; intros Hs.
  - by rewrite N.eqb_refl.
  - apply not_elem_of_cons in Hs as [Hc Hs].
    destruct (N.eqb_spec c sep) as [->|_]; [done|]. by rewrite IH.
Qed.

Lemma before_first_prefix (sep : N) (s : jsstring) :
  before_first sep s `prefix_of` s ∧ sep ∉ before_first sep s.
Proof.
  induction s as [|c s [IHp IHn]]; simpl.
  - split; [done | apply not_elem_of_nil].
  - destruct (N.eqb_spec c sep) as [->|Hne].
    + split; [apply prefix_nil | apply not_elem_of_nil].
    + split; [by apply prefix_cons|].
      apply not_elem_of_cons. split; [by intros ->|done].
Qed.

Lemma before_first_app_l (sep : N) (s rest : jsstring) :
  sep ∈ s → before_first sep (s ++ rest) = before_first sep s.
Proof.
  induction s as [|c s IH]; simpl; intros Hs.
  - by apply elem_of_nil in Hs.
  - destruct (N.eqb_spec c sep) as [->|Hne]; [done|].
    apply elem_of_cons in Hs as [->|Hs]; [done|]. by rewrite IH.
Qed.

(** The card of an upload in progress is titled with the identifier up to
    its first hyphen: the file name when the name has no hyphen, and only the
    part of the name before its first hyphen otherwise. *)
Theorem upload_card_title (name : jsstring) (now : Z) (progress : Q) :
  let title := card_title (renderUploadCard (fileId_of name now) progress) in
  title `prefix_of` name
  ∧ (45%N ∉ name → title = name)
  ∧ (45%N ∈ name → title ≠ name ∧ title = before_first 45 name).
Proof.
  simpl. unfold fileId_of. change (js "-") with [45%N]. simpl.
  destruct (decide (45%N ∈ name)) as [Hin|Hnot].
  - rewrite before_first_app_l by done.
    destruct (before_first_prefix 45 name) as [Hp Hn].
    split; [done|]. split; [done|]. intros _. split; [|done].
    intros Heq. by rewrite Heq in Hn.
  - rewrite before_first_app by done. split; [done|]. by split.
Qed.

Lemma digits_range (d : Decimal.uint) :
  Forall (λ c, (48 ≤ c ≤ 57)%N) (digits d).
Proof. induction d; simpl; constructor; (lia || done). Qed.

Lemma Number_toString_range (n : Z) :
  0 ≤ n → Forall (λ c, (48 ≤ c ≤ 57)%N) (Number_toString n).
Proof.
  destruct n as [|p|p]; simpl; intros Hn; [|apply digits_range|lia].
  constructor; [lia | constructor].
Qed.

Lemma size_tenths (size : Z) :
  Qfloor (inject_Z size / inject_Z (1024 * 1024) * 10 + (1 # 2))
  = (20 * size + 1048576) / 2097152.
Proof.
  unfold Qfloor, Qdiv, Qmult, Qplus, Qinv, inject_Z. simpl. f_equal. lia.
Qed.

(** The size label of a file of [size] bytes shows the size in units of
    [2^20] bytes rounded to one decimal, halves up; it reads "0.0MB" exactly
    for the files of at most 52428 bytes. *)
Theorem size_label_rounds (size : Z) :
  0 ≤ size →
  let n := (20 * size + 1048576) / 2097152 in
  sizeLabel size
  = Number_toString (n / 10) ++ js "." ++ Number_toString (n mod 10) ++ js "MB"
  ∧ (sizeLabel size = js "0.0MB" ↔ size ≤ 52428).
Proof.
  intros Hsize n.
  assert (sizeLabel size
          = Number_toString (n / 10) ++ js "."
            ++ Number_toString (n mod 10) ++ js "MB") as Hlabel.
  { unfold sizeLabel, toFixed1.
    replace (Qle_bool 0 (inject_Z size / inject_Z (1024 * 1024))) with true.
    - rewrite size_tenths. fold n. by rewrite <- !app_assoc.
    - symmetry. apply Qle_bool_iff.
      unfold Qdiv, Qmult, Qinv, Qle, inject_Z. simpl. lia. }
  split; [done|]. rewrite Hlabel.
  assert (0 ≤ n) as Hn by (apply Z.div_pos; lia).
  assert (0 ≤ n / 10) as Hq by (apply Z.div_pos; lia).
  assert (0 ≤ n mod 10 < 10) as Hm by (apply Z.mod_pos_bound; lia).
  assert (∀ l : jsstring, Forall (λ c, (48 ≤ c ≤ 57)%N) l →
            46%N ∉ l ++ [77%N; 66%N]) as Hnodot.
  { intros l Hl [Hin|Hin]%elem_of_app.
    - rewrite Forall_forall in Hl. apply Hl in Hin. lia.
    - apply elem_of_cons in Hin as [?|Hin]; [done|].
      apply elem_of_cons in Hin as [?|Hin]; [done|]. by apply elem_of_nil in Hin. }
  split.
  - intros Heq.
    destruct (split_at_separator 46%N (Number_toString (n / 10)) [48%N]
                (Number_toString (n mod 10) ++ [77%N; 66%N])
                ([48%N] ++ [77%N; 66%N])) as [Hhigh Hlow].
    + apply Hnodot, Number_toString_range. lia.
    + apply Hnodot. constructor; [lia | constructor].
    + exact Heq.
    + apply app_inv_tail in Hlow.
      apply (Number_toString_inj (n / 10) 0) in Hhigh; [|lia..].
      apply (Number_toString_inj (n mod 10) 0) in Hlow; [|lia..].
      assert (n = 0) as Hzero
        by (rewrite (Z.div_mod n 10), Hhigh, Hlow; lia).
      unfold n in Hzero.
      apply Z.div_small_iff in Hzero; lia.
  - intros Hsmall. assert (n = 0) as ->; [|done].
    unfold n. apply Z.div_small. lia.
Qed.

Lemma Math_round_percent (c : Q) :
  (0 <= c <= 1)%Q →
  0 ≤ Math_round (c * 100) ≤ 100
  ∧ (inject_Z (Math_round (c * 100)) - (1 # 2) <= c * 100)%Q
  ∧ (c * 100 < inject_Z (Math_round (c * 100)) + (1 # 2))%Q.
Proof.
  intros [H0 H1]. unfold Math_round.
  pose proof (Qfloor_le (c * 100 + (1 # 2))) as Hle.
  pose proof (Qlt_floor (c * 100 + (1 # 2))) as Hlt.
  rewrite inject_Z_plus in Hlt. change (inject_Z 1) with 1%Q in Hlt.
  split; [split|split; lra].
  - change 0 with (Qfloor 0). apply Qfloor_resp_le. lra.
  - assert (Qfloor (c * 100 + (1 # 2)) < 101); [|lia].
    rewrite Zlt_Qlt. change (inject_Z 101) with 101%Q. lra.
Qed.

(** For a confidence between 0 and 1 the page shows a whole percentage
    between 0% and 100%, less than one point away from a hundred times the
    confidence. *)
Theorem confidence_percentage (r : SearchResponse) (c : Q) :
  confidence r = val c → (0 <= c <= 1)%Q →
  ∃ n, view_confidence (renderResponse r) = Number_toString n ++ js "%"
    ∧ 0 ≤ n ≤ 100
    ∧ (inject_Z n - 1 < c * 100 < inject_Z n + 1)%Q.
Proof.
  intros Hc Hrange. exists (Math_round (c * 100)).
  destruct (Math_round_percent c Hrange) as (Hn & Hlow & Hhigh).
  unfold renderResponse. cbn [view_confidence]. rewrite Hc.
  split; [reflexivity|]. split; [exact Hn|]. split; lra.
Qed.

(** The citation dialog is open exactly when a citation is selected and
    shows that citation's name, page and excerpt; for a relevance score
    between 0 and 1 its bar is between 0% and 100% wide and its label a whole
    percentage in that range, and a citation without a score shows an empty
    bar and 0%. *)
Theorem citation_dialog_relevance (s : State) :
  (renderCitationDialog s = None ↔ selectedCitation s = None)
  ∧ ∀ c, selectedCitation s = Some c →
      ∃ d, renderCitationDialog s = Some d
        ∧ dialog_title d = document_name c
        ∧ dialog_page d = page_number c
        ∧ dialog_excerpt d = excerpt c
        ∧ (has_value (relevance_score c) = false →
             dialog_percent d = 0 ∧ (dialog_width d == 0)%Q)
        ∧ ∀ x, relevance_score c = val x → (0 <= x <= 1)%Q →
            0 ≤ dialog_percent d ≤ 100
            ∧ (0 <= dialog_width d <= 100)%Q.
Proof.
  unfold renderCitationDialog. split.
  - by destruct (selectedCitation s).
  - intros c ->. eexists. split; [done|]. cbn -[Math_round Qmult].
    do 3 (split; [done|]). split.
    + by destruct (relevance_score c).
    + intros x -> Hx. cbn -[Math_round Qmult].
      destruct (Math_round_percent x Hx) as (Hn & _).
      split; [done | lra].
Qed.

(** The Sources block shows one chip per citation, in the order of the
    response and without truncation, labelled with the citation's document
    name and page; it is left out when the list is empty or missing. *)
Theorem citation_chips_all (r : SearchResponse) :
  (∀ l, citations r = val l →
     citation_chips (renderResponse r)
     = (λ c, {| chip_document_name := document_name c;
                chip_page_number := page_number c |}) <$> l
     ∧ length (citation_chips (renderResponse r)) = length l
     ∧ (view_sources (renderResponse r) = None ↔ l = []))
  ∧ (has_value (citations r) = false → view_sources (renderResponse r) = None).
Proof.
  unfold citation_chips, renderResponse. cbn [view_sources]. split.
  - intros l ->. destruct l as [|c l]; [done|].
    replace (0 <? Z.of_nat (length (c :: l))) with true
      by (symmetry; apply Z.ltb_lt; simpl; lia).
    simpl. rewrite length_fmap. by repeat split.
  - by destruct (citations r).
Qed.

(** ** Registry and conversation are separate *)

Lemma run_invariant (P : World → Prop) :
  (∀ e w w', step e w = Some w' → P w → P w') →
  ∀ es w w', run es w = Some w' → P w → P w'.
Proof.
  intros Hstep es. induction es as [|e es IH]; simpl; intros w w' Hrun Hw.
  - by injection Hrun as <-.
  - guarded Hrun (step e w) w1 Hw1. eauto.
Qed.

Lemma chat_event_frame (e : Event) (w w' : World) :
  chat_event e = true → step e w = Some w' →
  documents (ui w') = documents (ui w)
  ∧ uploadingFiles (ui w') = uploadingFiles (ui w)
  ∧ deleteConfirm (ui w') = deleteConfirm (ui w)
  ∧ uploads w' = uploads w.
Proof.
  destruct e as [files now | i r | i r date now | i | | | text | now time
                | i outcome now time | suggestion | open | c];
    try discriminate; intros _ Hstep;
    try (by stepped Hstep).
  - simpl in Hstep. unfold handleQuery_submit in Hstep.
    destruct (_ || _); by stepped Hstep.
  - simpl in Hstep. guarded Hstep (inflight w !! i) req Hreq. stepped Hstep.
    simpl. by destruct (try_block outcome).
Qed.

Lemma registry_event_frame (e : Event) (w w' : World) :
  chat_event e = false → step e w = Some w' →
  chatMessages (ui w') = chatMessages (ui w)
  ∧ query (ui w') = query (ui w)
  ∧ loading (ui w') = loading (ui w)
  ∧ selectedCitation (ui w') = selectedCitation (ui w)
  ∧ inflight w' = inflight w.
Proof.
  destruct e as [files now | i r | i r date now | i | | | text | now time
                | i outcome now time | suggestion | open | c];
    try discriminate; intros _ Hstep;
    try (by stepped Hstep).
  - stepped Hstep. unfold handleFileSelect. by destruct (selectedFiles files).
  - simpl in Hstep. guarded Hstep (uploads w !! i) u Hu.
    destruct (up_interval u); [|done]. by stepped Hstep.
  - simpl in Hstep. guarded Hstep (uploads w !! i) u Hu. stepped Hstep.
    by destruct (up_rest u).
  - simpl in Hstep. guarded Hstep (documents (ui w) !! i) d Hd. by stepped Hstep.
  - stepped Hstep. simpl. unfold confirmDelete. by repeat case_match.
Qed.

(** Registry and conversation never touch each other's state: typing,
    submitting, settling, follow-ups and the two view toggles leave the
    documents, the progress entries, the uploads in progress and the pending
    deletion as they were; selecting files, ticks, completed uploads and the
    three steps of a deletion leave the messages, the input, the loading
    flag, the selected citation and the requests in flight as they were. *)
Theorem registry_and_conversation_separate (e : Event) (w w' : World) :
  step e w = Some w' →
  if chat_event e then
    documents (ui w') = documents (ui w)
    ∧ uploadingFiles (ui w') = uploadingFiles (ui w)
    ∧ deleteConfirm (ui w') = deleteConfirm (ui w)
    ∧ uploads w' = uploads w
  else
    chatMessages (ui w') = chatMessages (ui w)
    ∧ query (ui w') = query (ui w)
    ∧ loading (ui w') = loading (ui w)
    ∧ selectedCitation (ui w') = selectedCitation (ui w)
    ∧ inflight w' = inflight w.
Proof.
  intros Hstep. destruct (chat_event e) eqn:He.
  - by apply (chat_event_frame e).
  - by apply (registry_event_frame e).
Qed.

(** ** Progress entries over a session *)

Lemma current_progress_range (fileId : jsstring) (m : gmap jsstring Q) :
  (∀ k v, m !! k = Some v → (0 <= v < 130)%Q) →
  (0 <= current_progress fileId m < 130)%Q.
Proof.
  intros Hm. unfold current_progress.
  destruct (m !! fileId) as [v|] eqn:Hv; [|lra].
  destruct (Qeq_bool v 0); [lra | by apply (Hm fileId)].
Qed.

Lemma progressTick_range (fileId : jsstring) (r : Q) (m : gmap jsstring Q) :
  (0 <= r < 1)%Q →
  (∀ k v, m !! k = Some v → (0 <= v < 130)%Q) →
  ∀ k v, progressTick fileId r m !! k = Some v → (0 <= v < 130)%Q.
Proof.
  intros Hr Hm k v. unfold progressTick.
  pose proof (current_progress_range fileId m Hm) as Hc.
  destruct (Qle_bool 90 (current_progress fileId m)) eqn:E; [apply Hm|].
  assert (¬ (90 <= current_progress fileId m)%Q) as Hlt
    by (rewrite <- Qle_bool_iff; congruence).
  intros [[_ <-] | [_ Hk]]%lookup_insert_Some; [lra | by apply (Hm k)].
Qed.

Lemma iterate_progress_range (files : list File) (now : Z) (w : World) :
  progress_in_range w → progress_in_range (iterate files now w).
Proof.
  destruct files as [|file rest]; [done|]. intros Hw k v. simpl.
  intros [[_ <-] | [_ Hk]]%lookup_insert_Some; [lra | by apply (Hw k)].
Qed.

Lemma step_progress_range (e : Event) (w w' : World) :
  valid_event e → step e w = Some w' →
  progress_in_range w → progress_in_range w'.
Proof.
  intros Hvalid Hstep Hw. destruct (chat_event e) eqn:He.
  { destruct (chat_event_frame e w w' He Hstep) as (_ & Hm & _).
    unfold progress_in_range. by rewrite Hm. }
  destruct e as [files now | i r | i r date now | i | | | text | now time
                | i outcome now time | suggestion | open | c];
    try discriminate He; simpl in Hstep.
  - stepped Hstep. by apply iterate_progress_range.
  - guarded Hstep (uploads w !! i) u Hu.
    destruct (up_interval u); [|done]. stepped Hstep.
    intros k v. simpl. by apply progressTick_range.
  - guarded Hstep (uploads w !! i) u Hu. stepped Hstep.
    apply iterate_progress_range. intros k v. simpl.
    intros [_ Hk]%lookup_delete_Some. by apply (Hw k).
  - guarded Hstep (documents (ui w) !! i) d Hd. by stepped Hstep.
  - stepped Hstep. intros k v. simpl. unfold confirmDelete.
    repeat case_match; simpl; apply Hw.
  - by stepped Hstep.
Qed.

(** Over any session whose random draws lie in [0, 1), every progress entry
    stays at or above 0 and below 130, so an upload card never shows more
    than 130%. *)
Theorem progress_entries_bounded (es : list Event) (w : World) :
  Forall valid_event es → run es initialWorld = Some w →
  ∀ fileId v, uploadingFiles (ui w) !! fileId = Some v →
    (0 <= v < 130)%Q
    ∧ 0 ≤ card_percent (renderUploadCard fileId v) ≤ 130.
Proof.
  intros Hvalid Hrun.
  assert (progress_in_range w) as Hw.
  { assert (progress_in_range initialWorld) as H0 by (by intros k v).
    revert Hvalid Hrun H0. generalize initialWorld.
    induction es as [|e es IH]; simpl; intros w0 Hvalid Hrun H0.
    - by injection Hrun as <-.
    - apply Forall_cons in Hvalid as [He Hes].
      guarded Hrun (step e w0) w1 Hstep.
      apply (IH w1 Hes Hrun). by apply (step_progress_range e w0). }
  intros fileId v Hv. apply Hw in Hv as [H0 H130]. split; [done|].
  unfold renderUploadCard, Math_round. cbn [card_percent]. split.
  - change 0 with (Qfloor 0). apply Qfloor_resp_le. lra.
  - assert (Qfloor (v + (1 # 2)) < 131); [|lia].
    rewrite Zlt_Qlt. eapply Qle_lt_trans; [apply Qfloor_le|].
    change (inject_Z 131) with 131%Q. lra.
Qed.

(** Once the entry of an upload has reached 90, the next firing of its
    timer changes no entry and disarms the timer: no later tick of that
    upload can happen. *)
Theorem tick_stops_at_90 (i : nat) (r : Q) (u : Upload) (v : Q) (w : World) :
  uploads w !! i = Some u → up_interval u = true →
  uploadingFiles (ui w) !! up_fileId u = Some v → (90 <= v)%Q →
  ∃ w', step (Tick i r) w = Some w'
    ∧ uploadingFiles (ui w') = uploadingFiles (ui w)
    ∧ documents (ui w') = documents (ui w)
    ∧ up_fileId <$> uploads w' = up_fileId <$> uploads w
    ∧ ∀ r', step (Tick i r') w' = None.
Proof.
  intros Hu Hi Hv H90.
  assert (Qle_bool 90 (current_progress (up_fileId u) (uploadingFiles (ui w))) = true)
    as Hfull.
  { unfold current_progress. rewrite Hv.
    destruct (Qeq_bool v 0) eqn:Ez.
    - apply Qeq_bool_iff in Ez. lra.
    - by apply Qle_bool_iff. }
  eexists. split.
  { simpl. rewrite Hu. simpl. rewrite Hi. reflexivity. }
  simpl. unfold progressTick, tickClearsInterval. rewrite Hfull.
  split; [done|]. split; [done|]. split.
  - rewrite list_fmap_insert. simpl. apply list_insert_id.
    by rewrite list_lookup_fmap, Hu.
  - intros r'. rewrite list_lookup_insert_eq by (by eapply lookup_lt_Some).
    done.
Qed.

Lemma iterate_progress_owned (files : list File) (now : Z) (w : World) :
  progress_owned w → progress_owned (iterate files now w).
Proof.
  destruct files as [|file rest]; [done|]. intros Hw k. simpl.
  rewrite fmap_app, elem_of_app. simpl.
  destruct (decide (fileId_of (file_name file) now = k)) as [<-|Hne].
  - intros _. right. left.
  - rewrite lookup_insert_ne by done. intros Hk. left. by apply Hw.
Qed.

Lemma step_progress_owned (e : Event) (w w' : World) :
  step e w = Some w' → progress_owned w → progress_owned w'.
Proof.
  intros Hstep Hw. destruct (chat_event e) eqn:He.
  { destruct (chat_event_frame e w w' He Hstep) as (_ & Hm & _ & Hu).
    unfold progress_owned. by rewrite Hm, Hu. }
  destruct e as [files now | i r | i r date now | i | | | text | now time
                | i outcome now time | suggestion | open | c];
    try discriminate He; simpl in Hstep.
  - stepped Hstep. by apply iterate_progress_owned.
  - guarded Hstep (uploads w !! i) u Hu.
    destruct (up_interval u); [|done]. stepped Hstep.
    intros k. simpl. rewrite list_fmap_insert. simpl.
    rewrite list_insert_id by (by rewrite list_lookup_fmap, Hu).
    unfold progressTick. case_match; [apply Hw|].
    destruct (decide (up_fileId u = k)) as [<-|Hne].
    + intros _. apply list_elem_of_lookup. exists i.
      by rewrite list_lookup_fmap, Hu.
    + rewrite lookup_insert_ne by done. apply Hw.
  - guarded Hstep (uploads w !! i) u Hu. stepped Hstep.
    apply iterate_progress_owned. intros k. simpl.
    intros [v [Hne Hk]%lookup_delete_Some].
    assert (k ∈ up_fileId <$> uploads w) as Hin by (apply Hw; by eexists).
    rewrite (delete_Permutation (up_fileId <$> uploads w) i (up_fileId u)) in Hin
      by (by rewrite list_lookup_fmap, Hu).
    rewrite list_fmap_delete.
    apply elem_of_cons in Hin as [->|Hin]; [done|done].
  - guarded Hstep (documents (ui w) !! i) d Hd. by stepped Hstep.
  - stepped Hstep. intros k. simpl. unfold confirmDelete.
    repeat case_match; simpl; apply Hw.
  - by stepped Hstep.
Qed.

(** No progress entry is leaked: in every reachable state each entry
    belongs to an upload in progress, and when no upload is in progress the
    progress map is empty. *)
Theorem progress_entries_owned (w : World) :
  reachable w →
  (∀ fileId, is_Some (uploadingFiles (ui w) !! fileId) →
     fileId ∈ up_fileId <$> uploads w)
  ∧ (uploads w = [] → uploadingFiles (ui w) = ∅).
Proof.
  intros [es Hrun].
  assert (progress_owned w) as Hw.
  { apply (run_invariant progress_owned step_progress_owned es initialWorld w Hrun).
    intros k [v Hv]. simpl in Hv. by rewrite lookup_empty in Hv. }
  split; [done|]. intros Hnone. apply map_empty. intros k.
  apply eq_None_not_Some. intros Hk. apply Hw in Hk.
  rewrite Hnone in Hk. by apply elem_of_nil in Hk.
Qed.

(** ** What the registry holds *)

Lemma fileId_of_truthy (name : jsstring) (now : Z) :
  truthy_string (fileId_of name now) = true.
Proof. by destruct name. Qed.

Lemma selectedFiles_pdf (files : list File) :
  Forall (λ file, file_type file = pdf) (selectedFiles files).
Proof.
  apply Forall_forall. by intros file [? _]%list_elem_of_filter.
Qed.

Lemma iterate_registry_ok (files : list File) (now : Z) (w : World) :
  Forall (λ file, file_type file = pdf) files →
  registry_ok w → registry_ok (iterate files now w).
Proof.
  destruct files as [|file rest]; [done|].
  intros [Hfile Hrest]%Forall_cons (Hu & Hd & Hc).
  split; [|by split]. simpl. apply Forall_app. split; [done|].
  apply Forall_singleton. split; [done|]. split; [done|]. by exists now.
Qed.

Lemma step_registry_ok (e : Event) (w w' : World) :
  step e w = Some w' → registry_ok w → registry_ok w'.
Proof.
  intros Hstep (Hu & Hd & Hc). destruct (chat_event e) eqn:He.
  { destruct (chat_event_frame e w w' He Hstep) as (Hdocs & _ & Hdel & Hups).
    unfold registry_ok. by rewrite Hdocs, Hdel, Hups. }
  destruct e as [files now | i r | i r date now | i | | | text | now time
                | i outcome now time | suggestion | open | c];
    try discriminate He; simpl in Hstep.
  - stepped Hstep. by apply iterate_registry_ok; [apply selectedFiles_pdf|].
  - guarded Hstep (uploads w !! i) u Hi.
    destruct (up_interval u); [|done]. stepped Hstep.
    split; [|by split]. simpl. apply Forall_insert; [done|].
    by apply (Forall_lookup_1 _ _ _ _ Hu Hi).
  - guarded Hstep (uploads w !! i) u Hi. stepped Hstep.
    destruct (Forall_lookup_1 _ _ _ _ Hu Hi) as (Hpdf & Hrest & [t Hid]).
    apply iterate_registry_ok; [done|].
    split; [by apply Forall_delete|]. split; [|done]. simpl.
    apply Forall_cons. split; [|done]. split; [|done]. by exists t.
  - guarded Hstep (documents (ui w) !! i) d Hi. stepped Hstep.
    split; [done|]. split; [done|]. simpl. intros docId [= <-].
    destruct (Forall_lookup_1 _ _ _ _ Hd Hi) as [[t ->] _].
    apply fileId_of_truthy.
  - stepped Hstep. split; [done|]. split; [|done]. simpl.
    unfold confirmDelete. repeat case_match; simpl; try done.
    apply Forall_forall. intros d [_ Hin]%list_elem_of_filter.
    rewrite Forall_forall in Hd. by apply Hd.
  - by stepped Hstep.
Qed.

Lemma reachable_registry_ok (w : World) : reachable w → registry_ok w.
Proof.
  intros [es Hrun].
  apply (run_invariant registry_ok step_registry_ok es initialWorld w Hrun).
  by repeat split.
Qed.

(** Only PDF files are ever uploaded, and every listed document is
    identified by its own name: in a reachable state each upload in progress
    is for a file of type "application/pdf" and has only such files left, and
    each document's identifier is its name, a hyphen and a clock reading. *)
Theorem registry_well_formed (w : World) :
  reachable w →
  (∀ u, u ∈ uploads w →
     file_type (up_file u) = js "application/pdf"
     ∧ Forall (λ file, file_type file = js "application/pdf") (up_rest u)
     ∧ ∃ now, up_fileId u
              = file_name (up_file u) ++ js "-" ++ Number_toString now)
  ∧ (∀ d, d ∈ documents (ui w) →
       (∃ now, doc_id d = doc_name d ++ js "-" ++ Number_toString now)
       ∧ uploadProgress d = None).
Proof.
  intros (Hu & Hd & _)%reachable_registry_ok.
  rewrite Forall_forall in Hu. rewrite Forall_forall in Hd.
  split; [apply Hu | apply Hd].
Qed.

(** In a reachable state a pending deletion always names a non-empty
    identifier: the dialog is open, and its Delete action removes every
    document with that identifier, keeps the others and closes the dialog. *)
Theorem pending_delete_confirms (w : World) (docId : jsstring) :
  reachable w → deleteConfirm (ui w) = Some docId →
  deleteDialogOpen (ui w) = true
  ∧ documents (confirmDelete (ui w))
    = filter (λ doc, doc_id doc ≠ docId) (documents (ui w))
  ∧ deleteConfirm (confirmDelete (ui w)) = None
  ∧ deleteDialogOpen (confirmDelete (ui w)) = false.
Proof.
  intros (_ & _ & Hc)%reachable_registry_ok Hpending.
  pose proof (Hc docId Hpending) as Ht.
  unfold deleteDialogOpen, confirmDelete. rewrite Hpending, Ht. by repeat split.
Qed.

(** ** A batch of files, from selection to listing *)

Lemma run_step (e : Event) (es : list Event) (w w1 : World) :
  step e w = Some w1 → run (e :: es) w = run es w1.
Proof. intros H. simpl. by rewrite H. Qed.

(** A tick of the only upload in progress while its entry is below 90: the
    entry grows by less than 40, the timer stays armed, and nothing else
    changes. *)
Lemma tick_in_progress (r v : Q) (u : Upload) (w : World) :
  uploads w = [u] → up_interval u = true →
  uploadingFiles (ui w) !! up_fileId u = Some v →
  (0 <= v < 90)%Q → (0 <= r < 1)%Q →
  ∃ w' v',
    step (Tick 0 r) w = Some w'
    ∧ uploads w' = [u]
    ∧ uploadingFiles (ui w') !! up_fileId u = Some v'
    ∧ (0 <= v' < v + 40)%Q
    ∧ delete (up_fileId u) (uploadingFiles (ui w'))
      = delete (up_fileId u) (uploadingFiles (ui w))
    ∧ documents (ui w') = documents (ui w)
    ∧ chatMessages (ui w') = chatMessages (ui w)
    ∧ inflight w' = inflight w.
Proof.
  intros Hups Hi Hv Hrange Hr.
  assert ((current_progress (up_fileId u) (uploadingFiles (ui w)) == v)%Q) as Hc.
  { unfold current_progress. rewrite Hv.
    destruct (Qeq_bool v 0) eqn:Ez; [|reflexivity].
    apply Qeq_bool_iff in Ez. by rewrite Ez. }
  assert (Qle_bool 90 (current_progress (up_fileId u) (uploadingFiles (ui w)))
          = false) as Hgo.
  { apply not_true_is_false. rewrite Qle_bool_iff. lra. }
  eexists _, _. split.
  { simpl. rewrite Hups. simpl. rewrite Hi. reflexivity. }
  unfold tickClearsInterval, progressTick. simpl. rewrite !Hgo. simpl.
  split; [destruct u; simpl in Hi; by rewrite Hi|].
  split; [apply lookup_insert_eq|]. split; [lra|].
  split; [apply delete_insert_eq | done].
Qed.

(** The end of the wait of the only upload in progress. *)
Lemma processed_alone (r : Q) (date : jsstring) (next : Z) (u : Upload)
    (w : World) :
  uploads w = [u] →
  step (Processed 0 r date next) w
  = Some (iterate (up_rest u) next
            {| ui := completeUpload (up_file u) (up_fileId u) r date (ui w);
               uploads := [];
               inflight := inflight w;
               history := history w |}).
Proof. intros Hups. simpl. by rewrite Hups. Qed.

Lemma batch_drains (files : list File) :
  ∀ (now : Z) (draws : list Draw) (w : World),
    uploads w = [] → length draws = length files → Forall valid_draw draws →
    ∃ w' newDocs,
      run (concat (file_events <$> draws)) (iterate files now w) = Some w'
      ∧ documents (ui w') = newDocs ++ documents (ui w)
      ∧ doc_id <$> newDocs
        = reverse (zip_with fileId_of (file_name <$> files)
                     (now :: (next_now <$> draws)))
      ∧ doc_name <$> newDocs = reverse (file_name <$> files)
      ∧ doc_size <$> newDocs = reverse (file_size <$> files)
      ∧ Forall (λ d, 10 ≤ doc_pages d ≤ 109) newDocs
      ∧ uploads w' = []
      ∧ uploadingFiles (ui w') ⊆ uploadingFiles (ui w)
      ∧ chatMessages (ui w') = chatMessages (ui w)
      ∧ inflight w' = inflight w.
Proof.
  induction files as [|file rest IH]; intros now [|d draws] w Hnone Hlen Hvalid;
    try discriminate Hlen.
  - exists w, []. by repeat split.
  - injection Hlen as Hlen.
    apply Forall_cons in Hvalid as [(Ht1 & Ht2 & Ht3 & Hp) Hvalid].
    set (fileId := fileId_of (file_name file) now).
    set (u := {| up_file := file; up_fileId := fileId; up_interval := true;
                 up_rest := rest |}).
    set (w0 := iterate (file :: rest) now w).
    assert (uploads w0 = [u]) as Hu0 by (simpl; by rewrite Hnone).
    assert (uploadingFiles (ui w0) !! up_fileId u = Some 0%Q) as Hv0
      by apply lookup_insert_eq.
    destruct (tick_in_progress (tick1 d) 0 u w0 Hu0 eq_refl Hv0)
      as (w1 & v1 & Hs1 & Hu1 & Hv1 & Hr1 & Hm1 & Hd1 & Hc1 & Hi1); [lra|done|].
    destruct (tick_in_progress (tick2 d) v1 u w1 Hu1 eq_refl Hv1)
      as (w2 & v2 & Hs2 & Hu2 & Hv2 & Hr2 & Hm2 & Hd2 & Hc2 & Hi2); [lra|done|].
    destruct (tick_in_progress (tick3 d) v2 u w2 Hu2 eq_refl Hv2)
      as (w3 & v3 & Hs3 & Hu3 & Hv3 & Hr3 & Hm3 & Hd3 & Hc3 & Hi3); [lra|done|].
    pose proof (processed_alone (pages_draw d) (date_drawn d) (next_now d) u w3 Hu3)
      as Hs4.
    match type of Hs4 with
    | _ = Some (iterate _ _ ?w4) =>
        destruct (IH (next_now d) draws w4 eq_refl Hlen Hvalid)
          as (w' & newDocs & Hrun & Hdocs & Hids & Hnames & Hsizes & Hpages
              & Hups & Hmap & Hchat & Hreq)
    end.
    exists w', (newDocs ++ [{| doc_id := fileId;
                               doc_name := file_name file;
                               doc_size := file_size file;
                               doc_pages := Math_floor (pages_draw d * 100) + 10;
                               uploadDate := date_drawn d;
                               uploadProgress := None |}]).
    split.
    { change (concat (file_events <$> d :: draws))
        with (Tick 0 (tick1 d) :: Tick 0 (tick2 d) :: Tick 0 (tick3 d)
              :: Processed 0 (pages_draw d) (date_drawn d) (next_now d)
              :: concat (file_events <$> draws)).
      rewrite (run_step _ _ _ _ Hs1), (run_step _ _ _ _ Hs2),
        (run_step _ _ _ _ Hs3), (run_step _ _ _ _ Hs4). exact Hrun. }
    split.
    { rewrite Hdocs, <- app_assoc. cbn [ui documents completeUpload
        setDocuments setUploadingFiles up_file up_fileId u app].
      by rewrite Hd3, Hd2, Hd1. }
    split.
    { rewrite fmap_app, Hids. cbn [fmap list_fmap zip_with doc_id].
      by rewrite reverse_cons. }
    split; [rewrite fmap_app, Hnames; cbn [fmap list_fmap doc_name];
            by rewrite reverse_cons|].
    split; [rewrite fmap_app, Hsizes; cbn [fmap list_fmap doc_size];
            by rewrite reverse_cons|].
    split.
    { apply Forall_app. split; [done|]. apply Forall_singleton.
      pose proof (Math_floor_percent (pages_draw d) Hp). cbn [doc_pages]. lia. }
    split; [done|]. split.
    { etrans; [exact Hmap|].
      change (delete (up_fileId u) (uploadingFiles (ui w3))
              ⊆ uploadingFiles (ui w)).
      rewrite Hm3, Hm2, Hm1.
      change (delete fileId (<[fileId := 0%Q]> (uploadingFiles (ui w)))
              ⊆ uploadingFiles (ui w)).
      rewrite delete_insert_eq. apply delete_subseteq. }
    split.
    { rewrite Hchat. cbn [ui chatMessages completeUpload setDocuments
        setUploadingFiles]. by rewrite Hc3, Hc2, Hc1. }
    rewrite Hreq. cbn [inflight]. by rewrite Hi3, Hi2, Hi1.
Qed.

(** A batch that is processed while no other upload is in progress, each of
    its PDF files going through the three ticks and the end of its wait, ends
    with one new document for each PDF file, the last one processed first in
    the list and the earlier documents behind them. The new documents carry
    the names and sizes of the files, identifiers made from the name and the
    clock reading at which the loop reached the file, and between 10 and 109
    pages; no upload is left in progress, no progress entry is added, and the
    conversation is untouched. *)
Theorem batch_uploads_all (files : list File) (now : Z) (draws : list Draw)
    (w : World) :
  uploads w = [] → length draws = length (selectedFiles files) →
  Forall valid_draw draws →
  ∃ w' newDocs,
    run (batch_events files now draws) w = Some w'
    ∧ documents (ui w') = newDocs ++ documents (ui w)
    ∧ doc_id <$> newDocs
      = reverse (zip_with fileId_of (file_name <$> selectedFiles files)
                   (now :: (next_now <$> draws)))
    ∧ doc_name <$> newDocs = reverse (file_name <$> selectedFiles files)
    ∧ doc_size <$> newDocs = reverse (file_size <$> selectedFiles files)
    ∧ Forall (λ d, 10 ≤ doc_pages d ≤ 109) newDocs
    ∧ uploads w' = []
    ∧ uploadingFiles (ui w') ⊆ uploadingFiles (ui w)
    ∧ chatMessages (ui w') = chatMessages (ui w)
    ∧ inflight w' = inflight w.
Proof.
  intros Hnone Hlen Hvalid.
  destruct (batch_drains (selectedFiles files) now draws w Hnone Hlen Hvalid)
    as (w' & newDocs & Hrun & Hrest).
  exists w', newDocs. split; [|exact Hrest].
  unfold batch_events. by rewrite (run_step _ _ _ (handleFileSelect files now w)).
Qed.

(** ** Ticks, turns and the delete button *)

(** A firing of an upload's timer lowers no progress entry and removes
    none: every entry is still there afterwards, with a value at least as
    large. *)
Theorem tick_never_lowers (i : nat) (r : Q) (w w' : World) :
  (0 <= r)%Q → step (Tick i r) w = Some w' →
  ∀ fileId v, uploadingFiles (ui w) !! fileId = Some v →
    ∃ v', uploadingFiles (ui w') !! fileId = Some v' ∧ (v <= v')%Q.
Proof.
  intros Hr Hstep fileId v Hv. simpl in Hstep.
  guarded Hstep (uploads w !! i) u Hu.
  destruct (up_interval u); [|done]. stepped Hstep. simpl.
  destruct (decide (fileId = up_fileId u)) as [->|Hne].
  - by apply progressTick_monotone.
  - rewrite progressTick_other by done. exists v. split; [done | lra].
Qed.

(** A whole turn: a submission accepted at clock reading [t] and settled at
    a reading [t'] that is not earlier appends exactly two messages, the
    user's query and then the agent's reply, under different identifiers;
    afterwards the page is idle again with an empty input, and the registry
    is as before. *)
Theorem full_turn (t t' : Z) (time time' : jsstring) (outcome : FetchOutcome)
    (s : State) :
  0 ≤ t ≤ t' → loading s = false → whitespace_only (query s) = false →
  ∃ s1 req s2 mu ma,
    handleQuery_submit t time s = (s1, Some req)
    ∧ handleQuery_settle outcome t' time' s1 = (s2, [])
    ∧ chatMessages s2 = chatMessages s ++ [mu; ma]
    ∧ msg_type mu = user ∧ content mu = val (query s)
    ∧ msg_type ma = agent
    ∧ msg_id mu ≠ msg_id ma
    ∧ loading s2 = false ∧ query s2 = []
    ∧ documents s2 = documents s ∧ uploadingFiles s2 = uploadingFiles s.
Proof.
  intros Ht Hl Hq.
  assert (js "msg-" ++ Number_toString t ≠ js "msg-" ++ Number_toString (t' + 1))
    as Hids.
  { intros Heq. apply app_inv_head in Heq.
    apply Number_toString_inj in Heq; lia. }
  unfold handleQuery_submit, handleQuery_settle.
  destruct (truthy_string (trim (query s))) eqn:E;
    [|apply trim_empty_iff in E; congruence].
  rewrite Hl. simpl.
  destruct (try_block outcome) as [r|]; simpl;
    eexists _, _, _, _, _; (split; [reflexivity|]); (split; [reflexivity|]);
    simpl; rewrite <- app_assoc; by repeat split.
Qed.

(** The trash button of a listed document, in a reachable state: it opens
    the dialog and leaves the list alone; Delete then removes that document
    and keeps every document with another identifier, Cancel keeps the whole
    list, and either way the dialog closes. *)
Theorem card_delete_flow (w : World) (d : Document) :
  reachable w → d ∈ documents (ui w) →
  let s1 := doc_card_delete (renderDocumentCard d) (ui w) in
  documents s1 = documents (ui w)
  ∧ deleteDialogOpen s1 = true
  ∧ (d ∉ documents (confirmDelete s1))
  ∧ (∀ d', d' ∈ documents (ui w) → doc_id d' ≠ doc_id d →
       d' ∈ documents (confirmDelete s1))
  ∧ deleteDialogOpen (confirmDelete s1) = false
  ∧ documents (cancelDelete s1) = documents (ui w)
  ∧ deleteDialogOpen (cancelDelete s1) = false.
Proof.
  intros (_ & Hd & _)%reachable_registry_ok Hin. simpl.
  rewrite Forall_forall in Hd. destruct (Hd d Hin) as [[now Hid] _].
  assert (truthy_string (doc_id d) = true) as Ht
    by (rewrite Hid; apply fileId_of_truthy).
  unfold deleteDialogOpen, confirmDelete. simpl. rewrite Ht. simpl.
  split; [done|]. split; [done|]. split; [|split; [|done]].
  - intros [Hne _]%list_elem_of_filter. by apply Hne.
  - intros d' Hin' Hne. by apply list_elem_of_filter.
Qed.

(** ** Reaching the state a list of events leads to *)

(** When every event of [es] can happen in turn, [es] leads to the state
    that [default] reads off the run. *)
Lemma run_default (es : list Event) (w0 : World) :
  match run es w0 with Some _ => true | None => false end = true →
  run es w0 = Some (default w0 (run es w0)).
Proof. by destruct (run es w0). Qed.

Lemma reachable_default (es : list Event) :
  match run es initialWorld with Some _ => true | None => false end = true →
  reachable (default initialWorld (run es initialWorld)).
Proof. intros H. exists es. by apply run_default. Qed.

End Page.

(** * Closed instances *)

(** ** C5 on a run: three ticks take an entry past 90 *)

(** C5. The value of the progress entry is not kept at or below 90: after
    the events of [three_ticks] the upload is still in progress and its entry
    holds 108. *)
Theorem progress_exceeds_90 :
  ∃ w v,
    run parse_sample three_ticks initialWorld = Some w
    ∧ up_fileId <$> uploads w = [js "a.pdf-0"]
    ∧ uploadingFiles (ui w) !! js "a.pdf-0" = Some v
    ∧ (v == 108)%Q ∧ (90 < v)%Q.
Proof.
  eexists _, _. split; [reflexivity|]. split; [reflexivity|].
  split; [vm_compute; reflexivity|]. split; reflexivity.
Qed.

(** ** C9 as stated: two documents with one identifier *)

(** C9 fails as stated: the events of [colliding_uploads] lead from the
    initial state to one that lists two different documents under the same
    identifier. *)
Lemma document_ids_collide :
  ∃ w d1 d2,
    run parse_sample colliding_uploads initialWorld = Some w
    ∧ reachable parse_sample w
    ∧ documents (ui w) !! 0%nat = Some d1
    ∧ documents (ui w) !! 1%nat = Some d2
    ∧ d1 ≠ d2
    ∧ doc_id d1 = doc_id d2
    ∧ ¬ NoDup (doc_id <$> documents (ui w)).
Proof.
  eexists _, _, _. split; [reflexivity|].
  split; [exists colliding_uploads; reflexivity|].
  split; [reflexivity|]. split; [reflexivity|]. split; [|split].
  - intros H. apply (f_equal doc_pages) in H. vm_compute in H. discriminate H.
  - reflexivity.
  - intros [Hn _]%NoDup_cons. apply Hn. left.
Qed.

(** ** C8 as stated: one deletion removes two documents *)

(** C8 fails as stated: in the state that [colliding_uploads] leads to, the
    trash button of the first document followed by Delete removes that
    document and also the second one, a different document with the same
    identifier; only the third is left, where removing exactly the chosen
    document would leave the second and the third. *)
Lemma delete_removes_two_documents :
  ∃ w d1 d2 d3,
    run parse_sample colliding_uploads initialWorld = Some w
    ∧ documents (ui w) = [d1; d2; d3]
    ∧ d1 ≠ d2
    ∧ documents (handleDeleteDocument (doc_id d1) (requestDelete (doc_id d1) (ui w)))
      = [d3]
    ∧ documents (handleDeleteDocument (doc_id d1) (requestDelete (doc_id d1) (ui w)))
      ≠ [d2; d3].
Proof.
  eexists _, _, _, _. split; [reflexivity|]. split; [reflexivity|].
  split; [|split].
  - intros H. apply (f_equal doc_pages) in H. vm_compute in H. discriminate H.
  - vm_compute. reflexivity.
  - intros H. vm_compute in H. discriminate H.
Qed.

(** ** Instances of the theorems above *)

(** C1 at a state whose query is three spaces. *)
Lemma handleQuery_noop_blank :
  handleQuery_submit 1700000000000 (js "10:15:00 AM") (ui blank_query)
  = (ui blank_query, None)
  ∧ step parse_sample (SubmitQuery 1700000000000 (js "10:15:00 AM")) blank_query
    = Some blank_query.
Proof.
  apply (handleQuery_noop parse_sample 1700000000000 (js "10:15:00 AM") blank_query).
  right. reflexivity.
Defined.

(** C2 at the reply [{success: true, response: "{}"}]. *)
Lemma missing_fields_render_defaults_empty_object :
  renderMessage
    <$> chatMessages
          (handleQuery_settle parse_sample
             (JsonResolved (DataObject true (RespString (js "{}"))))
             1700000000000 (js "10:15:02 AM") initialState).1
  = [AgentBubble (val fallback_answer)
       (Some {| view_sources := None;
                view_confidence := js "0%";
                view_documents := 0;
                view_passages := 0%Q;
                view_follow_ups := None;
                view_processed := js "Processed in 0s" |})].
Proof.
  apply (missing_fields_render_defaults parse_sample (RespString (js "{}"))
           (ParsedObject {| answer := undefined; citations := undefined;
                            documents_referenced := undefined;
                            confidence := undefined;
                            follow_up_suggestions := undefined;
                            metadata := undefined |})
           1700000000000 (js "10:15:02 AM") initialState).
  - reflexivity.
  - repeat split.
Defined.

(** C3 at the reply [{success: false}]. *)
Lemma unsuccessful_reply_fallback_example :
  chatMessages
    (handleQuery_settle parse_sample
       (JsonResolved (DataObject false RespUndefined))
       1700000000000 (js "10:15:02 AM") initialState).1
  = [{| msg_id := js "msg-1700000000001";
        msg_type := agent;
        content := val fallback_answer;
        response := Some defaultResponse;
        timestamp := js "10:15:02 AM" |}].
Proof.
  apply (unsuccessful_reply_fallback parse_sample false RespUndefined
           1700000000000 (js "10:15:02 AM") initialState).
  left. reflexivity.
Defined.

(** C4 at a reply whose [response] text is not JSON. *)
Lemma failure_appends_error_example :
  let '(s', requests) :=
    handleQuery_settle parse_sample
      (JsonResolved (DataObject true (RespString (js "<html>"))))
      1700000000000 (js "10:15:02 AM") (setLoading true initialState) in
  chatMessages s'
  = [{| msg_id := js "msg-1700000000001";
        msg_type := agent;
        content := val error_text;
        response := None;
        timestamp := js "10:15:02 AM" |}]
  ∧ loading s' = false
  ∧ requests = []
  ∧ documents s' = [] ∧ query s' = []
  ∧ uploadingFiles s' = ∅.
Proof.
  apply (failure_appends_error parse_sample
           (JsonResolved (DataObject true (RespString (js "<html>"))))
           1700000000000 (js "10:15:02 AM") (setLoading true initialState)).
  apply response_parse_failure; reflexivity.
Defined.

(** C6 at a response with five suggestions. *)
Lemma follow_ups_truncated_five :
  follow_up_buttons (renderResponse five_follow_ups) = [js "a"; js "b"; js "c"]
  ∧ length (follow_up_buttons (renderResponse five_follow_ups)) = 3%nat.
Proof.
  apply (follow_ups_truncated five_follow_ups [js "a"; js "b"; js "c"; js "d"; js "e"]).
  reflexivity.
Defined.

(** C7 at a batch holding one text file. *)
Lemma non_pdf_batch_ignored_txt :
  handleFileSelect [notes_txt] 1700000000000 initialWorld = initialWorld
  ∧ documents (ui (handleFileSelect [notes_txt] 1700000000000 initialWorld)) = []
  ∧ uploadingFiles (ui (handleFileSelect [notes_txt] 1700000000000 initialWorld)) = ∅.
Proof.
  apply (non_pdf_batch_ignored [notes_txt] 1700000000000 initialWorld).
  repeat constructor. discriminate.
Defined.

(** C8 at a list of three documents, deleting the middle one. *)
Lemma delete_two_steps_middle :
  documents (requestDelete (js "b.pdf-3000") three_documents)
  = [doc "c.pdf" 5000; doc "b.pdf" 3000; doc "a.pdf" 1000]
  ∧ documents (handleDeleteDocument (js "b.pdf-3000")
                 (requestDelete (js "b.pdf-3000") three_documents))
    = [doc "c.pdf" 5000; doc "a.pdf" 1000].
Proof.
  destruct (delete_two_steps (js "b.pdf-3000") three_documents)
    as (Hrequest & _ & _ & _ & Hconfirm).
  split; [exact Hrequest|].
  apply (Hconfirm [doc "c.pdf" 5000] (doc "b.pdf" 3000) [doc "a.pdf" 1000]).
  - reflexivity.
  - reflexivity.
  - repeat constructor; discriminate.
Defined.

(** C9 as it holds, at the state those events lead to. *)
Lemma document_ids_distinct_separate :
  NoDup (doc_id <$> documents (ui (after_separate_uploads parse_sample))).
Proof.
  apply (document_ids_distinct parse_sample (after_separate_uploads parse_sample)).
  - apply (reachable_default parse_sample separate_uploads). reflexivity.
  - apply (bool_decide_unpack (NoDup (history (after_separate_uploads parse_sample)))).
    vm_compute. exact I.
  - apply (bool_decide_unpack
             (Forall (λ p : jsstring * Z, 0 ≤ p.2) (history (after_separate_uploads parse_sample)))).
    vm_compute. exact I.
Defined.

(** C10 at a response object whose six fields are all [null]. *)
Lemma null_fields_defaulted_all_null :
  ∃ r, agentResponse_of parse_sample (DataObject true (RespObject all_null)) = Some r
    ∧ (answer all_null = null → answer r = val fallback_answer)
    ∧ (citations all_null = null → citations r = val [])
    ∧ (documents_referenced all_null = null → documents_referenced r = val [])
    ∧ (confidence all_null = null → confidence r = val 0%Q)
    ∧ (follow_up_suggestions all_null = null → follow_up_suggestions r = val [])
    ∧ (metadata all_null = null → metadata r = metadata defaultResponse)
    ∧ has_value (answer r) && has_value (citations r)
      && has_value (documents_referenced r) && has_value (confidence r)
      && has_value (follow_up_suggestions r) && has_value (metadata r) = true.
Proof.
  apply (null_fields_defaulted parse_sample (RespObject all_null) all_null).
  reflexivity.
Defined.

(** ** Instances of the further properties *)

Lemma handleQuery_accepts_asking :
  (handleQuery_submit 1700000000000 (js "10:15:00 AM") asking).2
  = Some {| req_url := js "/api/agent";
            req_method := js "POST";
            req_content_type := js "application/json";
            req_message := js "What is the refund policy?";
            req_agent_id := agent_id |}.
Proof.
  destruct (handleQuery_accepts 1700000000000 (js "10:15:00 AM") asking)
    as (s' & Hsubmit & _); [reflexivity..|].
  rewrite Hsubmit. reflexivity.
Defined.

Lemma null_payload_appends_error_example :
  chatMessages
    (handleQuery_settle parse_sample
       (JsonResolved (DataObject true (RespString (js "null"))))
       1700000000000 (js "10:15:02 AM") initialState).1
  = [{| msg_id := js "msg-1700000000001";
        msg_type := agent;
        content := val error_text;
        response := None;
        timestamp := js "10:15:02 AM" |}].
Proof.
  apply (null_payload_appends_error parse_sample
           (JsonResolved (DataObject true (RespString (js "null"))))
           1700000000000 (js "10:15:02 AM") initialState).
  right. exists (js "null"). by repeat split.
Defined.

Lemma complete_response_kept_example :
  chatMessages
    (handleQuery_settle parse_sample
       (JsonResolved (DataObject true (RespObject full_response)))
       1700000000000 (js "10:15:02 AM") initialState).1
  = [{| msg_id := js "msg-1700000000001";
        msg_type := agent;
        content := val (js "30 days");
        response := Some full_response;
        timestamp := js "10:15:02 AM" |}].
Proof.
  apply (complete_response_kept parse_sample (RespObject full_response)
           full_response 1700000000000 (js "10:15:02 AM") initialState);
    reflexivity.
Defined.

Lemma response_text_as_object_example :
  handleQuery_settle parse_sample
    (JsonResolved (DataObject true (RespString (js "{}"))))
    1700000000000 (js "10:15:02 AM") initialState
  = handleQuery_settle parse_sample
      (JsonResolved
         (DataObject true
            (RespObject {| answer := undefined; citations := undefined;
                           documents_referenced := undefined;
                           confidence := undefined;
                           follow_up_suggestions := undefined;
                           metadata := undefined |})))
      1700000000000 (js "10:15:02 AM") initialState.
Proof.
  apply (response_text_as_object parse_sample (js "{}")); reflexivity.
Defined.

Lemma follow_up_then_submit_example :
  ∃ s' req,
    handleQuery_submit 1700000000000 (js "10:15:00 AM")
      (handleFollowUp (js "Who pays for the return?") initialState)
    = (s', Some req)
    ∧ req_message req = js "Who pays for the return?".
Proof.
  destruct (follow_up_then_submit (js "Who pays for the return?")
              1700000000000 (js "10:15:00 AM") initialState)
    as (_ & _ & s' & req & Hsubmit & Hmessage & _); [reflexivity..|].
  by exists s', req.
Defined.

Lemma messages_append_only_chat :
  chatMessages (ui initialWorld)
  `prefix_of` chatMessages (ui (after_chat_session parse_sample)).
Proof.
  apply (messages_append_only parse_sample chat_session).
  apply run_default. reflexivity.
Defined.

Lemma conversation_alternates_chat :
  conversation_shape (after_chat_session parse_sample).
Proof.
  apply (conversation_alternates parse_sample).
  apply (reachable_default parse_sample chat_session). reflexivity.
Defined.

Lemma reachable_serialized_chat :
  serialized (after_chat_session parse_sample).
Proof.
  apply (reachable_serialized parse_sample).
  apply (reachable_default parse_sample chat_session). reflexivity.
Defined.

Lemma completed_upload_document_example :
  ∃ newDoc,
    documents (completeUpload a_pdf (js "a.pdf-0") (1 # 2) (js "1/1/2026")
                 initialState) = [newDoc]
    ∧ 10 ≤ doc_pages newDoc ≤ 109.
Proof.
  destruct (completed_upload_document a_pdf (js "a.pdf-0") (1 # 2)
              (js "1/1/2026") initialState)
    as (newDoc & Hdocs & _ & _ & _ & _ & Hpages & _);
    [split; [discriminate | reflexivity]|].
  by exists newDoc.
Defined.

Lemma totals_after_delete_middle :
  totalPages (handleDeleteDocument (js "b.pdf-3000") three_documents) = 24
  ∧ totalSize (handleDeleteDocument (js "b.pdf-3000") three_documents) = 2000.
Proof.
  destruct (totals_after_delete three_documents [doc "c.pdf" 5000]
              [doc "a.pdf" 1000] (doc "b.pdf" 3000))
    as (Hpages & Hsize & _);
    [reflexivity | repeat constructor; discriminate |].
  split; [exact Hpages | exact Hsize].
Defined.

Lemma size_label_rounds_half_megabyte :
  sizeLabel 524288 = js "0.5MB"
  ∧ (sizeLabel 524288 = js "0.0MB" ↔ 524288 ≤ 52428).
Proof.
  destruct (size_label_rounds 524288) as [Hlabel Hzero]; [lia|].
  split; [exact Hlabel | exact Hzero].
Defined.

Lemma confidence_percentage_example :
  ∃ n, view_confidence (renderResponse full_response)
       = Number_toString n ++ js "%"
    ∧ 0 ≤ n ≤ 100.
Proof.
  destruct (confidence_percentage full_response (82 # 100))
    as (n & Hview & Hn & _);
    [reflexivity | split; discriminate |].
  by exists n.
Defined.

Lemma registry_and_conversation_separate_typing :
  ∃ w', step parse_sample (TypeQuery (js "next")) (after_three_ticks parse_sample)
        = Some w'
      ∧ documents (ui w') = documents (ui (after_three_ticks parse_sample))
      ∧ uploadingFiles (ui w')
        = uploadingFiles (ui (after_three_ticks parse_sample))
      ∧ uploads w' = uploads (after_three_ticks parse_sample).
Proof.
  destruct (step parse_sample (TypeQuery (js "next"))
              (after_three_ticks parse_sample)) as [w'|] eqn:Hstep;
    [|discriminate Hstep].
  destruct (registry_and_conversation_separate parse_sample
              (TypeQuery (js "next")) (after_three_ticks parse_sample) w' Hstep)
    as (Hdocs & Hmap & _ & Hups).
  exists w'. split; [reflexivity|]. split; [exact Hdocs|].
  split; [exact Hmap | exact Hups].
Defined.

Lemma progress_entries_bounded_three_ticks :
  ∃ v, uploadingFiles (ui (after_three_ticks parse_sample)) !! js "a.pdf-0"
       = Some v
    ∧ (0 <= v < 130)%Q
    ∧ 0 ≤ card_percent (renderUploadCard (js "a.pdf-0") v) ≤ 130.
Proof.
  eexists. split; [vm_compute; reflexivity|].
  apply (progress_entries_bounded parse_sample three_ticks
           (after_three_ticks parse_sample)).
  - repeat constructor; simpl; lra.
  - apply run_default. reflexivity.
  - vm_compute. reflexivity.
Defined.

Lemma tick_stops_at_90_example :
  ∃ w', step parse_sample (Tick 0 (1 # 2)) (after_three_ticks parse_sample)
        = Some w'
    ∧ uploadingFiles (ui w')
      = uploadingFiles (ui (after_three_ticks parse_sample))
    ∧ ∀ r', step parse_sample (Tick 0 r') w' = None.
Proof.
  destruct (tick_stops_at_90 parse_sample 0 (1 # 2)
              {| up_file := a_pdf; up_fileId := js "a.pdf-0";
                 up_interval := true; up_rest := [] |}
              (108000 # 1000) (after_three_ticks parse_sample))
    as (w' & Hstep & Hmap & _ & _ & Hstop).
  - vm_compute. reflexivity.
  - reflexivity.
  - vm_compute. reflexivity.
  - discriminate.
  - exists w'. split; [exact Hstep|]. split; [exact Hmap | exact Hstop].
Defined.

Lemma progress_entries_owned_after_uploads :
  uploadingFiles (ui (after_separate_uploads parse_sample)) = ∅.
Proof.
  apply (progress_entries_owned parse_sample (after_separate_uploads parse_sample)).
  - apply (reachable_default parse_sample separate_uploads). reflexivity.
  - vm_compute. reflexivity.
Defined.

Lemma registry_well_formed_pending :
  Forall (λ d, (∃ now, doc_id d = doc_name d ++ js "-" ++ Number_toString now)
               ∧ uploadProgress d = None)
    (documents (ui (after_pending_deletion parse_sample))).
Proof.
  apply Forall_forall.
  apply (registry_well_formed parse_sample (after_pending_deletion parse_sample)).
  apply (reachable_default parse_sample pending_deletion). reflexivity.
Defined.

Lemma pending_delete_confirms_example :
  deleteDialogOpen (ui (after_pending_deletion parse_sample)) = true
  ∧ doc_id <$> documents (confirmDelete (ui (after_pending_deletion parse_sample)))
    = [js "y.pdf-3000"; js "x.pdf-1000"].
Proof.
  destruct (pending_delete_confirms parse_sample
              (after_pending_deletion parse_sample) (js "y.pdf-3001"))
    as (Hopen & Hdocs & _).
  - apply (reachable_default parse_sample pending_deletion). reflexivity.
  - vm_compute. reflexivity.
  - split; [exact Hopen|]. rewrite Hdocs. vm_compute. reflexivity.
Defined.

Lemma batch_uploads_all_example :
  ∃ w' newDocs,
    run parse_sample (batch_events [notes_txt; x_pdf; y_pdf] 1000 two_draws)
      initialWorld = Some w'
    ∧ documents (ui w') = newDocs ++ []
    ∧ doc_id <$> newDocs = [js "y.pdf-3000"; js "x.pdf-1000"]
    ∧ doc_name <$> newDocs = [js "y.pdf"; js "x.pdf"]
    ∧ doc_size <$> newDocs = [3000; 1000]
    ∧ Forall (λ d, 10 ≤ doc_pages d ≤ 109) newDocs
    ∧ uploads w' = []
    ∧ uploadingFiles (ui w') ⊆ ∅
    ∧ chatMessages (ui w') = []
    ∧ inflight w' = [].
Proof.
  apply (batch_uploads_all parse_sample [notes_txt; x_pdf; y_pdf] 1000
           two_draws initialWorld); [reflexivity|reflexivity|].
  repeat (apply Forall_cons; split); [| |apply Forall_nil];
    unfold valid_draw; simpl; lra.
Defined.

Lemma tick_never_lowers_example :
  ∃ w' v', step parse_sample (Tick 0 (1 # 2))
             (default initialWorld
                (run parse_sample [SelectFiles [a_pdf] 0; Tick 0 (9 # 10)]
                   initialWorld)) = Some w'
    ∧ uploadingFiles (ui w') !! js "a.pdf-0" = Some v'
    ∧ (36 <= v')%Q.
Proof.
  destruct (step parse_sample (Tick 0 (1 # 2))
              (default initialWorld
                 (run parse_sample [SelectFiles [a_pdf] 0; Tick 0 (9 # 10)]
                    initialWorld))) as [w'|] eqn:Hstep;
    [|vm_compute in Hstep; discriminate Hstep].
  destruct (tick_never_lowers parse_sample 0 (1 # 2) _ w'
              ltac:(discriminate) Hstep (js "a.pdf-0") (360 # 10))
    as (v' & Hv' & Hle); [vm_compute; reflexivity|].
  exists w', v'. split; [reflexivity|]. split; [exact Hv'|].
  eapply Qle_trans; [|exact Hle]. discriminate.
Defined.

Lemma full_turn_asking :
  ∃ s2 mu ma,
    (handleQuery_settle parse_sample FetchRejected 1700000000900
       (js "10:15:01 AM")
       (handleQuery_submit 1700000000000 (js "10:15:00 AM") asking).1).1 = s2
    ∧ chatMessages s2 = [mu; ma]
    ∧ msg_id mu ≠ msg_id ma
    ∧ loading s2 = false.
Proof.
  destruct (full_turn parse_sample 1700000000000 1700000000900
              (js "10:15:00 AM") (js "10:15:01 AM") FetchRejected asking)
    as (s1 & req & s2 & mu & ma & Hsubmit & Hsettle & Hchat & _ & _ & _
        & Hids & Hidle & _); [lia | reflexivity | reflexivity |].
  exists s2, mu, ma. rewrite Hsubmit. cbn [fst]. rewrite Hsettle.
  split; [reflexivity|]. split; [exact Hchat|]. split; [exact Hids | exact Hidle].
Defined.

Lemma card_delete_flow_newest :
  documents (doc_card_delete (renderDocumentCard newest_y)
               (ui (after_separate_uploads parse_sample)))
  = documents (ui (after_separate_uploads parse_sample))
  ∧ deleteDialogOpen (doc_card_delete (renderDocumentCard newest_y)
                        (ui (after_separate_uploads parse_sample))) = true
  ∧ (newest_y
     ∉ documents (confirmDelete
                    (doc_card_delete (renderDocumentCard newest_y)
                       (ui (after_separate_uploads parse_sample))))).
Proof.
  destruct (card_delete_flow parse_sample (after_separate_uploads parse_sample)
              newest_y)
    as (Hsame & Hopen & Hgone & _).
  - apply (reachable_default parse_sample separate_uploads). reflexivity.
  - apply list_elem_of_lookup. exists 0%nat. vm_compute. reflexivity.
  - split; [exact Hsame|]. split; [exact Hopen | exact Hgone].
Defined.
